(** * VizAssistant: the CSV sampler and the chart aggregation helpers

    A shallow embedding of [services/mockBackend.ts] ([analyzeCSV]) and of the
    helper functions and the data-processing branches of
    [components/ChartRenderer.tsx] ([scale], [getQuantiles], [getDensity],
    [calculateCorrelation], the histogram/density branch and the heatmap
    branch), followed by the properties established about them.

    Number model.  A JavaScript number is an IEEE double.  Finite doubles are
    rationals, so data values are of type [Q] and the arithmetic on them is
    exact (no rounding, no overflow, no infinities); [NaN], where the code
    tests for it, is the [None] of an [option Q].  The Pearson coefficient
    needs a square root and is computed over [R].  Bin counters and row counts
    are integers ([Z]). *)

From Stdlib Require Import ZArith QArith Qround Reals Psatz.
From Stdlib Require Import List Sorted String Ascii Bool.
Import ListNotations.

(* ------------------------------------------------------------------ *)
(** ** JavaScript built-ins used by the two source files *)

Module JS.

(** A value stored in a row object: [string | number], or [undefined]. *)
Inductive value : Type :=
| VUndefined
| VNum (q : Q)
| VStr (s : string).

(** A plain object with string keys, in insertion order. *)
Definition object := list (string * value).

Fixpoint get (o : object) (k : string) : value :=
  match o with
  | [] => VUndefined
  | (k', v) :: o' => if String.eqb k' k then v else get o' k
  end.

(** [o[k] = v]: overwrite the property in place or append it. *)
Fixpoint set (o : object) (k : string) (v : value) : object :=
  match o with
  | [] => [(k, v)]
  | (k', v') :: o' =>
      if String.eqb k' k then (k', v) :: o' else (k', v') :: set o' k v
  end.

(** White space removed by [String.prototype.trim], restricted to ASCII:
    TAB, LF, VT, FF, CR and SPACE. *)
Definition isWhiteSpace (c : ascii) : bool :=
  let n := nat_of_ascii c in
  ((9 <=? n) && (n <=? 13) || (n =? 32))%nat.

Fixpoint trimStart (s : string) : string :=
  match s with
  | EmptyString => EmptyString
  | String c t => if isWhiteSpace c then trimStart t else s
  end.

Fixpoint trimEnd (s : string) : string :=
  match s with
  | EmptyString => EmptyString
  | String c t =>
      match trimEnd t with
      | EmptyString => if isWhiteSpace c then EmptyString else String c EmptyString
      | t' => String c t'
      end
  end.

Definition trim (s : string) : string := trimEnd (trimStart s).

(** [s.split(sep)] for a one-character separator; the empty string splits
    into one empty piece. *)
Fixpoint split (sep : ascii) (s : string) : list string :=
  match s with
  | EmptyString => [EmptyString]
  | String c t =>
      if Ascii.eqb c sep then EmptyString :: split sep t
      else match split sep t with
           | [] => [String c EmptyString]
           | piece :: rest => String c piece :: rest
           end
  end.

(** [a.slice(i, j)] for [0 <= i <= j]. *)
Definition slice {A} (i j : nat) (a : list A) : list A :=
  firstn (j - i) (skipn i a).

(** [a.pop()], keeping the array that remains. *)
Definition pop {A} (a : list A) : list A := removelast a.

(** [a[i]] for an integer [i]: [undefined] ([None]) outside the array. *)
Definition index {A} (a : list A) (i : Z) : option A :=
  if (i <? 0)%Z then None else nth_error a (Z.to_nat i).

(** [a.map((v, i) => f v i)]. *)
Fixpoint mapi_from {A B} (i : Z) (f : A -> Z -> B) (a : list A) : list B :=
  match a with
  | [] => []
  | v :: a' => f v i :: mapi_from (i + 1)%Z f a'
  end.

Definition mapi {A B} (f : A -> Z -> B) (a : list A) : list B :=
  mapi_from 0%Z f a.

(** [new Set(a).size] for values compared with [eqb]. *)
Fixpoint distinct {A} (eqb : A -> A -> bool) (a : list A) : list A :=
  match a with
  | [] => []
  | v :: a' =>
      let d := distinct eqb a' in
      if existsb (eqb v) d then d else v :: d
  end.

Definition optStringEqb (a b : option string) : bool :=
  match a, b with
  | None, None => true
  | Some s, Some t => String.eqb s t
  | _, _ => false
  end.

(** Truthiness of a finite number: only [0] is falsy. *)
Definition truthy (q : Q) : bool := negb (Qeq_bool q 0).

(** [a || b] on finite numbers. *)
Definition or (a b : Q) : Q := if truthy a then a else b.

(** [Math.min(...a)] and [Math.max(...a)].  On the empty array JavaScript
    answers [+Infinity] and [-Infinity], which are outside the number model;
    the model answers [0] there. *)
Definition min2 (a b : Q) : Q := if Qle_bool a b then a else b.
Definition max2 (a b : Q) : Q := if Qle_bool a b then b else a.

Definition Math_min (a : list Q) : Q :=
  match a with
  | [] => 0
  | v :: a' => fold_left min2 a' v
  end.

Definition Math_max (a : list Q) : Q :=
  match a with
  | [] => 0
  | v :: a' => fold_left max2 a' v
  end.

(** [[...a].sort((a, b) => a - b)]: the stable sort by the sign of the
    comparator. *)
Definition compareFn (a b : Q) : Q := a - b.

Fixpoint insert (v : Q) (a : list Q) : list Q :=
  match a with
  | [] => [v]
  | w :: a' =>
      if Qle_bool (compareFn v w) 0 then v :: a else w :: insert v a'
  end.

Fixpoint sort (a : list Q) : list Q :=
  match a with
  | [] => []
  | v :: a' => insert v (sort a')
  end.

(** Keep the numbers of a list of possibly-[NaN] numbers:
    [a.filter(n => !isNaN(n))]. *)
Fixpoint filterNotNaN (a : list (option Q)) : list Q :=
  match a with
  | [] => []
  | Some q :: a' => q :: filterNotNaN a'
  | None :: a' => filterNotNaN a'
  end.

Definition isNaN (n : option Q) : bool :=
  match n with Some _ => false | None => true end.

End JS.

(* ------------------------------------------------------------------ *)
(** ** types.ts *)

Inductive ChartTypeId : Type :=
| HISTOGRAM | BAR | BOX | VIOLIN | SCATTER
| LINE | DENSITY | RIDGELINE | HEATMAP | AREA.

Inductive ColumnType : Type := numeric | categorical | date | unknown.

Definition ColumnType_eqb (a b : ColumnType) : bool :=
  match a, b with
  | numeric, numeric | categorical, categorical
  | date, date | unknown, unknown => true
  | _, _ => false
  end.

Module Column.
Record t : Type := mk {
  name : string;
  type : ColumnType;
  uniqueCount : nat;
  sample : list (option string)
}.
End Column.

Module DatasetStats.
Record t : Type := mk {
  rowCount : Z;
  colCount : nat;
  columns : list Column.t;
  data : list JS.object
}.
End DatasetStats.

(** The outcome of the promise returned by [analyzeCSV]. *)
Inductive Promise (A : Type) : Type :=
| Resolved (v : A)
| Rejected (reason : string).
Arguments Resolved {A} v.
Arguments Rejected {A} reason.

(* ------------------------------------------------------------------ *)
(** ** services/mockBackend.ts *)

Module MockBackend.
Section WithNumber.

(** [Number(s)] on a string, [None] for [NaN].  The conversion is the
    language's own; the sampler is modelled for any such conversion. *)
Variable Number_of_string : string -> option Q.

(** [Number(val)] where [val] is a string or [undefined]. *)
Definition Number (val : option string) : option Q :=
  match val with
  | Some s => Number_of_string s
  | None => None
  end.

Definition CHUNK_SIZE : Z := 50 * 1024.

(** A file is its bytes; text is read one character per byte. *)
Definition File := string.

Definition size (file : File) : Z := Z.of_nat (String.length file).

Definition readChunk (file : File) : string :=
  substring 0 (Z.to_nat CHUNK_SIZE) file.

(** The non-blank lines of the chunk, the last line of a longer file
    dropped first. *)
Definition sampledLines (file : File) : list string :=
  let text := readChunk file in
  let lines := JS.split "010"%char text in
  let lines := if (size file >? CHUNK_SIZE)%Z then JS.pop lines else lines in
  filter (fun l => (0 <? String.length (JS.trim l))%nat) lines.

Definition nonEmptyString (val : option string) : bool :=
  match val with
  | Some EmptyString => false
  | _ => true
  end.

(** [!isNaN(Number(val)) && val !== ''] *)
Definition looksNumeric (val : option string) : bool :=
  negb (JS.isNaN (Number val)) && nonEmptyString val.

(** [row[index]?.trim()] *)
Definition cellAt (row : list string) (index : nat) : option string :=
  option_map JS.trim (nth_error row index).

Definition estimatedTotalRows (file : File) (lines : list string) : Z :=
  if (size file >? CHUNK_SIZE)%Z
  then Qfloor ((inject_Z (size file) / inject_Z CHUNK_SIZE)
               * inject_Z (Z.of_nat (List.length lines)))
  else (Z.of_nat (List.length lines) - 1)%Z.

Definition inferColumn (lines : list string) (sampleRows : list (list string))
    (name : string) (index : nat) : Column.t :=
  let values := map (fun row => cellAt row index) sampleRows in
  let isNumeric := forallb looksNumeric values in
  let allValuesInCol :=
    map (fun l => cellAt (JS.split ","%char l) index) (JS.slice 1 101 lines) in
  let uniqueCount := List.length (JS.distinct JS.optStringEqb allValuesInCol) in
  Column.mk name (if isNumeric then numeric else categorical)
            uniqueCount (JS.slice 0 3 values).

Fixpoint mapIndexed {A B} (i : nat) (f : A -> nat -> B) (a : list A) : list B :=
  match a with
  | [] => []
  | v :: a' => f v i :: mapIndexed (S i) f a'
  end.

Definition toCell (val : option string) : JS.value :=
  if looksNumeric val
  then match Number val with
       | Some q => JS.VNum q
       | None => JS.VUndefined
       end
  else match val with
       | Some s => JS.VStr s
       | None => JS.VUndefined
       end.

Fixpoint fillRow (headers : list string) (i : nat) (values : list string)
    (obj : JS.object) : JS.object :=
  match headers with
  | [] => obj
  | h :: headers' =>
      fillRow headers' (S i) values (JS.set obj h (toCell (cellAt values i)))
  end.

Definition analyzeCSV (file : File) : Promise DatasetStats.t :=
  let text := readChunk file in
  match text with
  | EmptyString => Rejected "Empty file"
  | _ =>
      let lines := sampledLines file in
      if (List.length lines <? 2)%nat then Rejected "Invalid CSV: Not enough rows"
      else
        let headers := map JS.trim (JS.split ","%char (hd EmptyString lines)) in
        let estimated := estimatedTotalRows file lines in
        let colCount := List.length headers in
        let sampleRows := map (JS.split ","%char) (JS.slice 1 6 lines) in
        let columns := mapIndexed 0 (inferColumn lines sampleRows) headers in
        let dataLimit := 100%nat in
        let data :=
          map (fun line => fillRow headers 0 (JS.split ","%char line) [])
              (JS.slice 1 (dataLimit + 1) lines) in
        Resolved (DatasetStats.mk estimated colCount columns data)
  end.

End WithNumber.

(** A conversion for plain unsigned decimal integers, used to run the
    sampler on examples; every other string is [NaN] under it, except the
    empty string, which [Number] converts to [0]. *)
Fixpoint digitsValue (acc : Z) (s : string) : option Z :=
  match s with
  | EmptyString => Some acc
  | String c t =>
      let n := Z.of_nat (nat_of_ascii c) in
      if ((48 <=? n) && (n <=? 57))%Z
      then digitsValue (10 * acc + (n - 48))%Z t
      else None
  end.

Definition decimalNumber (s : string) : option Q :=
  option_map inject_Z (digitsValue 0 (JS.trim s)).

(** The four-line file of the scenario: a header and three data rows. *)
Definition scenarioFile : File :=
  "a,b
1,x
2,y
3,z
"%string.

End MockBackend.

(* ------------------------------------------------------------------ *)
(** ** components/ChartRenderer.tsx: helpers *)

Module Point.
Record t : Type := mk { x : Q; y : Q }.
End Point.

Module Quantiles.
Record t : Type := mk {
  min : option Q;
  q1 : option Q;
  median : option Q;
  q3 : option Q;
  max : option Q
}.
End Quantiles.

Module Cell.
Record t : Type := mk { x : string; y : string; value : R }.
End Cell.

Module ChartRenderer.

(** Maps a value from the data domain [[min, max]] to the pixel range
    [[outMin, outMax]]. *)
Definition scale (val min max outMin outMax : Q) : Q :=
  if Qeq_bool max min then (outMin + outMax) / 2
  else outMin + ((val - min) / (max - min)) * (outMax - outMin).

(** An array element read as [sorted[i]] is [None] when [i] is outside the
    array, as the field of the result then holds [undefined]. *)
Definition getQuantiles (data : list Q) : Quantiles.t :=
  match data with
  | [] => Quantiles.mk (Some 0) (Some 0) (Some 0) (Some 0) (Some 0)
  | _ =>
      let sorted := JS.sort data in
      let len := Z.of_nat (List.length sorted) in
      Quantiles.mk
        (JS.index sorted 0)
        (JS.index sorted (Qfloor (inject_Z len * 0.25)))
        (JS.index sorted (Qfloor (inject_Z len * 0.5)))
        (JS.index sorted (Qfloor (inject_Z len * 0.75)))
        (JS.index sorted (len - 1))
  end.

(** [bins[idx]++] on an array of counters.  Inside the array the counter
    goes up by one.  An index outside it leaves every counter as it is: a
    negative index names a property that is not an element, and an index
    past the end would add an element without touching the counters. *)
Fixpoint incrementAt (bins : list Z) (n : nat) : list Z :=
  match bins, n with
  | [], _ => []
  | b :: bins', O => (b + 1)%Z :: bins'
  | b :: bins', S n' => b :: incrementAt bins' n'
  end.

Definition increment (bins : list Z) (idx : Z) : list Z :=
  if (idx <? 0)%Z then bins else incrementAt bins (Z.to_nat idx).

(** [arr[i] || val] on an array of counters: [val] when the element is
    [undefined] and also when it is [0]. *)
Definition elementOr (element : option Z) (val : Z) : Z :=
  match element with
  | Some n => if (n =? 0)%Z then val else n
  | None => val
  end.

(** [Math.min(Math.floor(((v - min) / range) * binCount), binCount - 1)] *)
Definition densityIndex (min range : Q) (binCount : nat) (v : Q) : Z :=
  Z.min (Qfloor (((v - min) / range) * inject_Z (Z.of_nat binCount)))
        (Z.of_nat binCount - 1).

Definition densityRange (data : list Q) : Q :=
  JS.or (JS.Math_max data - JS.Math_min data) 1.

Definition densityBins (data : list Q) (binCount : nat) : list Z :=
  let min := JS.Math_min data in
  let range := densityRange data in
  fold_left (fun bins v => increment bins (densityIndex min range binCount v))
            data (repeat 0%Z binCount).

(** Smoothing (moving average). *)
Definition smooth (bins : list Z) : list Q :=
  JS.mapi (fun val i =>
             let prev := elementOr (JS.index bins (i - 1)) val in
             let next := elementOr (JS.index bins (i + 1)) val in
             (inject_Z prev + inject_Z val * 2 + inject_Z next) / 4)
          bins.

Definition getDensity (data : list Q) (binCount : nat) : list Point.t :=
  match data with
  | [] => []
  | _ =>
      let min := JS.Math_min data in
      let range := densityRange data in
      let smoothed := smooth (densityBins data binCount) in
      JS.mapi (fun val i =>
                 Point.mk (min + (inject_Z i / inject_Z (Z.of_nat binCount)) * range)
                          val)
              smoothed
  end.

(** The default value of the parameter [binCount]. *)
Definition defaultBinCount : nat := 30.

(** [y[i]] inside [calculateCorrelation] is read only after the two lengths
    were found equal, so the index is inside [y]. *)
Fixpoint sumProducts (i : nat) (x y : list R) (sum : R) : R :=
  match x with
  | [] => sum
  | xi :: x' => sumProducts (S i) x' y (sum + xi * nth i y 0)%R
  end.

(** [x.reduce((a, b) => a + b, 0)] *)
Definition sum (x : list R) : R := fold_left Rplus x 0%R.

(** [x.reduce((sum, xi) => sum + xi * xi, 0)] *)
Definition sumSquares (x : list R) : R :=
  fold_left (fun sum xi => sum + xi * xi)%R x 0%R.

(** The two factors under the square root are never negative in exact
    arithmetic, so the root is that of a non-negative number. *)
Definition calculateCorrelation (x y : list R) : R :=
  let n := List.length x in
  if negb (n =? List.length y)%nat || (n =? 0)%nat then 0%R
  else
    let sumX := sum x in
    let sumY := sum y in
    let sumXY := sumProducts 0 x y 0%R in
    let sumX2 := sumSquares x in
    let sumY2 := sumSquares y in
    let numerator := (INR n * sumXY - sumX * sumY)%R in
    let denominator :=
      sqrt ((INR n * sumX2 - sumX * sumX) * (INR n * sumY2 - sumY * sumY))%R in
    if Req_dec_T denominator 0%R then 0%R else (numerator / denominator)%R.

(** *** The data-processing branches of the component *)

Inductive Processed : Type :=
| Density (points : list Point.t) (xLabel : string) (range : Q * Q)
| Bar (values : list Z) (labels : list Q) (xLabel yLabel : string)
| Heatmap (matrix : list Cell.t) (labels : list string) (size : nat).

Definition histogramBinCount : nat := 15.

(** [(max - min) / binCount || 1] *)
Definition histogramBinSize (vals : list Q) : Q :=
  JS.or ((JS.Math_max vals - JS.Math_min vals)
         / inject_Z (Z.of_nat histogramBinCount)) 1.

(** [Math.min(Math.floor((v - min) / binSize), binCount - 1)] *)
Definition histogramIndex (min binSize : Q) (v : Q) : Z :=
  Z.min (Qfloor ((v - min) / binSize)) (Z.of_nat histogramBinCount - 1).

Definition histogramBins (vals : list Q) : list Z :=
  let min := JS.Math_min vals in
  let binSize := histogramBinSize vals in
  fold_left (fun bins v => increment bins (histogramIndex min binSize v))
            vals (repeat 0%Z histogramBinCount).

Section WithNumber.

(** [Number(s)] on a string, [None] for [NaN]. *)
Variable Number_of_string : string -> option Q.

(** [Number(v)] on the value of a row property. *)
Definition Number (v : JS.value) : option Q :=
  match v with
  | JS.VUndefined => None
  | JS.VNum q => Some q
  | JS.VStr s => Number_of_string s
  end.

Definition columnsOfType (ty : ColumnType) (columns : list Column.t)
    : list string :=
  map Column.name
      (filter (fun c => ColumnType_eqb (Column.type c) ty) columns).

(** [data.map(d => Number(d[col])).filter(n => !isNaN(n))] *)
Definition getNums (data : list JS.object) (col : string) : list Q :=
  JS.filterNotNaN (map (fun d => Number (JS.get d col)) data).

(** Branch 1, for the chart types HISTOGRAM and DENSITY.  [None] when the
    guard of the branch is false; no later branch accepts these two types,
    so the component then shows its placeholder.  The labels of the
    histogram are kept as numbers, before [toFixed(1)] prints them. *)
Definition histogramDensityBranch (type : ChartTypeId)
    (data : list JS.object) (columns : list Column.t) : option Processed :=
  match type, columnsOfType numeric columns with
  | DENSITY, col :: _ =>
      let vals := getNums data col in
      Some (Density (getDensity vals defaultBinCount) col
                    (JS.Math_min vals, JS.Math_max vals))
  | HISTOGRAM, col :: _ =>
      let vals := getNums data col in
      let min := JS.Math_min vals in
      let binSize := histogramBinSize vals in
      let bins := histogramBins vals in
      Some (Bar bins
                (JS.mapi (fun _ i => min + inject_Z i * binSize) bins)
                col "Count")
  | _, _ => None
  end.

(** Branch 7, for the chart type HEATMAP: the correlation of two columns,
    computed on their numeric cells. *)
Definition correlationOf (data : list JS.object) (ci cj : string) : R :=
  calculateCorrelation (map Q2R (getNums data ci)) (map Q2R (getNums data cj)).

(** The two nested loops over [cols], pushing one cell per pair. *)
Definition correlationMatrix (data : list JS.object) (cols : list string)
    : list Cell.t :=
  flat_map (fun ci =>
              map (fun cj => Cell.mk ci cj (correlationOf data ci cj)) cols)
           cols.

Definition heatmapBranch (type : ChartTypeId)
    (data : list JS.object) (columns : list Column.t) : option Processed :=
  let numCols := columnsOfType numeric columns in
  match type with
  | HEATMAP =>
      if (2 <=? List.length numCols)%nat then
        let cols := JS.slice 0 6 numCols in
        let matrix := correlationMatrix data cols in
        Some (Heatmap matrix cols (List.length cols))
      else None
  | _ => None
  end.

End WithNumber.

End ChartRenderer.

(* ------------------------------------------------------------------ *)
(** ** Reference definitions used in the statements *)

Module Reference.

(** The sum of an array of counters. *)
Definition total (bins : list Z) : Z := fold_right Z.add 0%Z bins.

(** The smoothing in the words of the specification: a neighbour whose
    index is outside the array is replaced by the current count, a
    neighbour inside the array contributes its own count. *)
Definition neighbour (element : option Z) (val : Z) : Z :=
  match element with
  | Some n => n
  | None => val
  end.

Definition smoothAsSpecified (bins : list Z) : list Q :=
  JS.mapi (fun val i =>
             let prev := neighbour (JS.index bins (i - 1)) val in
             let next := neighbour (JS.index bins (i + 1)) val in
             (inject_Z prev + inject_Z val * 2 + inject_Z next) / 4)
          bins.

(** The variance term of the Pearson formula, [n * sum(x^2) - sum(x)^2]. *)
Definition spread (x : list R) : R :=
  (INR (List.length x) * ChartRenderer.sumSquares x
   - ChartRenderer.sum x * ChartRenderer.sum x)%R.

(** The rows whose cell in column [col] converts to a number. *)
Definition numericRows (Number_of_string : string -> option Q)
    (data : list JS.object) (col : string) : list JS.object :=
  filter (fun d =>
            negb (JS.isNaN (ChartRenderer.Number Number_of_string
                              (JS.get d col))))
         data.

End Reference.

(* ------------------------------------------------------------------ *)
(** ** Sample datasets *)

Module Examples.

Definition column (name : string) (type : ColumnType) : Column.t :=
  Column.mk name type 0 [].

(** One numeric column with a cell that is not a number. *)
Definition oneColumn : list Column.t := [column "a" numeric].
Definition oneColumnData : list JS.object :=
  [ [("a"%string, JS.VNum 1)];
    [("a"%string, JS.VStr "x")];
    [("a"%string, JS.VNum 4)] ].

(** Two numeric columns, the first of them constant. *)
Definition twoColumns : list Column.t :=
  [column "a" numeric; column "b" numeric].
Definition constantColumnData : list JS.object :=
  [ [("a"%string, JS.VNum 1); ("b"%string, JS.VNum 1)];
    [("a"%string, JS.VNum 1); ("b"%string, JS.VNum 2)] ].

(** Two numeric columns, the second with a cell missing in the last row. *)
Definition missingCellData : list JS.object :=
  [ [("a"%string, JS.VNum 1); ("b"%string, JS.VNum 2)];
    [("a"%string, JS.VNum 3); ("b"%string, JS.VUndefined)] ].

(** Two numeric columns that both vary. *)
Definition varyingData : list JS.object :=
  [ [("a"%string, JS.VNum 1); ("b"%string, JS.VNum 2)];
    [("a"%string, JS.VNum 3); ("b"%string, JS.VNum 5)] ].

End Examples.

(* ------------------------------------------------------------------ *)
(** ** Libraries used by the rest of the component *)

From Stdlib Require Import NArith DecimalString Permutation Qabs.

(* ------------------------------------------------------------------ *)
(** ** Notions used to state properties of texts and rows *)

Module Text.

(** The character [c] occurs in [s]. *)
Fixpoint occurs (c : ascii) (s : string) : bool :=
  match s with
  | EmptyString => false
  | String d t => Ascii.eqb d c || occurs c t
  end.

(** [pieces.join(sep)] for a one-character separator. *)
Fixpoint join (sep : ascii) (pieces : list string) : string :=
  match pieces with
  | [] => EmptyString
  | [p] => p
  | p :: rest => (p ++ String sep (join sep rest))%string
  end.

(** The first and the last character of a string, if any. *)
Definition first (s : string) : option ascii :=
  match s with
  | EmptyString => None
  | String c _ => Some c
  end.

Fixpoint last (s : string) : option ascii :=
  match s with
  | EmptyString => None
  | String c EmptyString => Some c
  | String _ t => last t
  end.

Definition notWhiteSpace (c : option ascii) : bool :=
  match c with
  | Some c => negb (JS.isWhiteSpace c)
  | None => true
  end.

(** A string that neither starts nor ends with white space. *)
Definition trimmed (s : string) : bool :=
  notWhiteSpace (first s) && notWhiteSpace (last s).

(** The header tokens of a sampled file: the first non-blank line, split on
    commas, each token trimmed. *)
Definition headerTokens (file : MockBackend.File) : list string :=
  map JS.trim
      (JS.split ","%char (hd EmptyString (MockBackend.sampledLines file))).

(** The data lines of a sampled file that are turned into rows. *)
Definition dataLines (file : MockBackend.File) : list string :=
  JS.slice 1 101 (MockBackend.sampledLines file).

End Text.

(* ------------------------------------------------------------------ *)
(** ** Notions used to state properties of the correlation *)

Module Vector.

(** The sum of the products of two lists, position by position. *)
Fixpoint dot (x y : list R) : R :=
  match x, y with
  | xi :: x', yi :: y' => (xi * yi + dot x' y')%R
  | _, _ => 0%R
  end.

(** The list [x + t * y], position by position. *)
Fixpoint combination (t : R) (x y : list R) : list R :=
  match x, y with
  | xi :: x', yi :: y' => (xi + t * yi)%R :: combination t x' y'
  | _, _ => []
  end.

(** The covariance term of the Pearson formula,
    [n * sum(x*y) - sum(x) * sum(y)]. *)
Definition covariance (x y : list R) : R :=
  (INR (List.length x) * dot x y
   - ChartRenderer.sum x * ChartRenderer.sum y)%R.

End Vector.

(* ------------------------------------------------------------------ *)
(** ** Objects used as dictionaries *)

Module JSObject.

(** A plain object whose properties all hold values of one type, in the
    order in which the properties were created. *)
Definition dict (A : Type) : Type := list (string * A).

(** [o[k]]: [None] for [undefined]. *)
Fixpoint lookup {A} (o : dict A) (k : string) : option A :=
  match o with
  | [] => None
  | (k', v) :: o' => if String.eqb k' k then Some v else lookup o' k
  end.

(** [o[k] = v]: overwrite the property in place or append it. *)
Fixpoint assign {A} (o : dict A) (k : string) (v : A) : dict A :=
  match o with
  | [] => [(k, v)]
  | (k', v') :: o' =>
      if String.eqb k' k then (k', v) :: o' else (k', v') :: assign o' k v
  end.

(** A property name is an array index when it is the canonical decimal
    form of an integer from 0 to 2^32 - 2. *)
Definition arrayIndex (k : string) : option N :=
  match NilZero.uint_of_string k with
  | Some u =>
      let n := N.of_uint u in
      if String.eqb (NilZero.string_of_uint (N.to_uint n)) k
         && (n <=? 4294967294)%N
      then Some n
      else None
  | None => None
  end.

Fixpoint insertIndex (n : N) (k : string) (sorted : list (N * string))
    : list (N * string) :=
  match sorted with
  | [] => [(n, k)]
  | (m, k') :: rest =>
      if (n <=? m)%N then (n, k) :: sorted
      else (m, k') :: insertIndex n k rest
  end.

Fixpoint indexKeys {A} (o : dict A) : list (N * string) :=
  match o with
  | [] => []
  | (k, _) :: o' =>
      match arrayIndex k with
      | Some n => insertIndex n k (indexKeys o')
      | None => indexKeys o'
      end
  end.

Fixpoint nameKeys {A} (o : dict A) : list string :=
  match o with
  | [] => []
  | (k, _) :: o' =>
      match arrayIndex k with
      | Some _ => nameKeys o'
      | None => k :: nameKeys o'
      end
  end.

(** [Object.keys(o)]: the array indices in ascending numeric order, then
    the other names in the order of their creation. *)
Definition keys {A} (o : dict A) : list string :=
  map snd (indexKeys o) ++ nameKeys o.

End JSObject.

(* ------------------------------------------------------------------ *)
(** ** components/ChartRenderer.tsx: the other data-processing branches *)

Module Label.
(** A label of the line chart: the position of the row, or a text. *)
Inductive t : Type :=
| Position (i : Z)
| Text (s : string).
End Label.

(** How the evaluation of an expression ends: with a value, or with the
    [TypeError] of a property read on [undefined]. *)
Inductive Completion (A : Type) : Type :=
| Normal (v : A)
| TypeError.
Arguments Normal {A} v.
Arguments TypeError {A}.

Module ChartData.

Import ChartRenderer.

(** What the [useMemo] of the component can return besides [null]. *)
Inductive Result : Type :=
| Base (p : Processed)
| CategoryBars (values : list (option Q)) (labels : list string)
               (xLabel yLabel : string)
| Line (values : list Q) (labels : list Label.t)
       (xLabel yLabel : string) (isArea : bool)
| Scatter (points : list (option Q * option Q)) (xLabel yLabel : string)
| Box (data : list (string * Quantiles.t)) (yRange : option Q * option Q)
      (xLabel yLabel : string)
| Violin (data : list (string * list Point.t)) (yRange : Q * Q)
         (xLabel yLabel : string)
| Ridgeline (lines : list (string * list Point.t)) (xRange : Q * Q)
            (xLabel : string).

(** [n || 0] where [n] may be [NaN]. *)
Definition numberOrZero (n : option Q) : Q :=
  match n with
  | Some q => JS.or q 0
  | None => 0
  end.

(** Truthiness of the value of a row property. *)
Definition truthyValue (v : JS.value) : bool :=
  match v with
  | JS.VUndefined => false
  | JS.VNum q => JS.truthy q
  | JS.VStr s => negb (String.eqb s EmptyString)
  end.

(** [groups[k]] for a name [k] taken from [Object.keys(groups)]: the
    property exists, and holds an array. *)
Definition valuesOf (groups : JSObject.dict (list Q)) (k : string)
    : list Q :=
  match JSObject.lookup groups k with
  | Some vals => vals
  | None => []
  end.

(** [Math.min(...a)] and [Math.max(...a)] on numbers that may be
    [undefined]: [NaN] as soon as one of them is. *)
Fixpoint allNumbers (a : list (option Q)) : option (list Q) :=
  match a with
  | [] => Some []
  | Some q :: a' => option_map (cons q) (allNumbers a')
  | None :: _ => None
  end.

Definition Math_min_of (a : list (option Q)) : option Q :=
  option_map JS.Math_min (allNumbers a).

Definition Math_max_of (a : list (option Q)) : option Q :=
  option_map JS.Math_max (allNumbers a).

Section WithConversions.

(** [Number(s)] on a string, [None] for [NaN]. *)
Variable Number_of_string : string -> option Q.

(** [String(n)] on a number. *)
Variable String_of_number : Q -> string.

(** [String(v)] on the value of a row property. *)
Definition String (v : JS.value) : string :=
  match v with
  | JS.VUndefined => "undefined"
  | JS.VNum q => String_of_number q
  | JS.VStr s => s
  end.

Definition numberAt (d : JS.object) (col : string) : option Q :=
  Number Number_of_string (JS.get d col).

(** Branch 2: [groups[k] = (groups[k] || 0) + v] for every row. *)
Definition addToGroup (cat num : string) (groups : JSObject.dict Q)
    (d : JS.object) : JSObject.dict Q :=
  let k := String (JS.get d cat) in
  let v := numberOrZero (numberAt d num) in
  JSObject.assign groups k (numberOrZero (JSObject.lookup groups k) + v).

Definition barGroups (data : list JS.object) (cat num : string)
    : JSObject.dict Q :=
  fold_left (addToGroup cat num) data [].

Definition barBranch (type : ChartTypeId) (data : list JS.object)
    (columns : list Column.t) : option Result :=
  match type, columnsOfType categorical columns,
        columnsOfType numeric columns with
  | BAR, cat :: _, num :: _ =>
      let groups := barGroups data cat num in
      let keys := JS.slice 0 8 (JSObject.keys groups) in
      Some (CategoryBars (map (JSObject.lookup groups) keys) keys cat num)
  | _, _, _ => None
  end.

(** Branch 3.  [data[0]['date']] is read when there is no second numeric
    column; on an empty [data] that read throws. *)
Definition lineXColumn (data : list JS.object) (numCols : list string)
    : Completion string :=
  match numCols with
  | _ :: second :: _ => Normal second
  | _ =>
      match data with
      | [] => TypeError
      | d0 :: _ =>
          Normal (if truthyValue (JS.get d0 "date") then "date"
                  else "Index")%string
      end
  end.

Definition lineBranch (type : ChartTypeId) (data : list JS.object)
    (columns : list Column.t) : Completion (option Result) :=
  match type, columnsOfType numeric columns with
  | (LINE | AREA), yCol :: _ =>
      match lineXColumn data (columnsOfType numeric columns) with
      | TypeError => TypeError
      | Normal xCol =>
          let rows := JS.slice 0 50 data in
          let vals := map (fun d => numberOrZero (numberAt d yCol)) rows in
          let labels :=
            JS.mapi (fun d i =>
                       if String.eqb xCol "Index" then Label.Position i
                       else Label.Text (String (JS.get d xCol)))
                    rows in
          Normal (Some (Line vals labels
                             (if String.eqb xCol "Index" then "Index"
                              else xCol)%string
                             yCol
                             (match type with AREA => true | _ => false end)))
      end
  | _, _ => Normal None
  end.

(** Branch 4. *)
Definition scatterBranch (type : ChartTypeId) (data : list JS.object)
    (columns : list Column.t) : option Result :=
  match type, columnsOfType numeric columns with
  | SCATTER, xCol :: yCol :: _ =>
      Some (Scatter (map (fun d => (numberAt d xCol, numberAt d yCol))
                         (JS.slice 0 100 data))
                    xCol yCol)
  | _, _ => None
  end.

(** Branches 5 and 6: the numbers of column [numCol], grouped under the key
    of their row; [groups[k]] is created empty at the first value and every
    value is pushed at its end. *)
Definition pushToGroup (numCol : string) (keyOf : JS.object -> string)
    (groups : JSObject.dict (list Q)) (d : JS.object)
    : JSObject.dict (list Q) :=
  match numberAt d numCol with
  | Some v =>
      let k := keyOf d in
      let groups :=
        match JSObject.lookup groups k with
        | Some _ => groups
        | None => JSObject.assign groups k []
        end in
      JSObject.assign groups k (valuesOf groups k ++ [v])
  | None => groups
  end.

Definition groupValues (data : list JS.object) (numCol : string)
    (keyOf : JS.object -> string) : JSObject.dict (list Q) :=
  fold_left (pushToGroup numCol keyOf) data [].

(** [catCol ? String(d[catCol]) : 'All'], where [catCol] is the name of the
    first categorical column or [null]; the empty name is falsy. *)
Definition boxKey (catCol : option string) (d : JS.object) : string :=
  match catCol with
  | Some c =>
      if String.eqb c EmptyString then "All"%string
      else String (JS.get d c)
  | None => "All"%string
  end.

(** [catCol || ''] *)
Definition boxXLabel (catCol : option string) : string :=
  match catCol with
  | Some c => c
  | None => EmptyString
  end.

Definition boxViolinBranch (type : ChartTypeId) (data : list JS.object)
    (columns : list Column.t) : option Result :=
  match type, columnsOfType numeric columns with
  | (BOX | VIOLIN), numCol :: _ =>
      let catCol := hd_error (columnsOfType categorical columns) in
      let groups := groupValues data numCol (boxKey catCol) in
      let keys := JS.slice 0 5 (JSObject.keys groups) in
      match type with
      | VIOLIN =>
          let violins :=
            map (fun k => (k, getDensity (valuesOf groups k) 20)) keys in
          let allVals := flat_map (valuesOf groups) keys in
          Some (Violin violins (JS.Math_min allVals, JS.Math_max allVals)
                       (boxXLabel catCol) numCol)
      | _ =>
          let boxes :=
            map (fun k => (k, getQuantiles (valuesOf groups k))) keys in
          let min :=
            Math_min_of (map (fun b => Quantiles.min (snd b)) boxes) in
          let max :=
            Math_max_of (map (fun b => Quantiles.max (snd b)) boxes) in
          Some (Box boxes (min, max) (boxXLabel catCol) numCol)
      end
  | _, _ => None
  end.

(** [catCol !== 'Category' ? String(d[catCol]) : 'Group 1'], where
    [catCol] is the name of the first categorical column, or ['Category']
    when there is none. *)
Definition ridgelineKey (catCol : string) (d : JS.object) : string :=
  if String.eqb catCol "Category" then "Group 1"%string
  else String (JS.get d catCol).

Definition ridgelineBranch (type : ChartTypeId) (data : list JS.object)
    (columns : list Column.t) : option Result :=
  match type, columnsOfType numeric columns with
  | RIDGELINE, numCol :: _ =>
      let catCol :=
        match columnsOfType categorical columns with
        | c :: _ => c
        | [] => "Category"%string
        end in
      let groups := groupValues data numCol (ridgelineKey catCol) in
      let keys := JS.slice 0 5 (JSObject.keys groups) in
      let lines :=
        map (fun k => (k, getDensity (valuesOf groups k) 40)) keys in
      let allVals := flat_map (valuesOf groups) keys in
      Some (Ridgeline lines (JS.Math_min allVals, JS.Math_max allVals)
                      numCol)
  | _, _ => None
  end.

(** The whole [useMemo]: the branch of the chart type, or [null].  The
    guards of the seven branches test the type first, and no type passes two
    of them. *)
Definition processed (type : ChartTypeId) (data : list JS.object)
    (columns : list Column.t) : Completion (option Result) :=
  match type with
  | HISTOGRAM | DENSITY =>
      Normal (option_map Base
                (histogramDensityBranch Number_of_string type data columns))
  | BAR => Normal (barBranch type data columns)
  | LINE | AREA => lineBranch type data columns
  | SCATTER => Normal (scatterBranch type data columns)
  | BOX | VIOLIN => Normal (boxViolinBranch type data columns)
  | RIDGELINE => Normal (ridgelineBranch type data columns)
  | HEATMAP =>
      Normal (option_map Base
                (heatmapBranch Number_of_string type data columns))
  end.

End WithConversions.

End ChartData.

(* ------------------------------------------------------------------ *)
(** ** Notions used to state properties of the grouped charts *)

Module Grouping.

Import ChartData.

(** The sum of a list of numbers. *)
Definition sumQ (a : list Q) : Q := fold_right Qplus 0 a.

(** The rows whose key is [k]. *)
Definition rowsOfKey (keyOf : JS.object -> string) (k : string)
    (data : list JS.object) : list JS.object :=
  filter (fun d => String.eqb (keyOf d) k) data.

(** The numbers of column [numCol] in the rows whose key is [k], in the
    order of the rows. *)
Definition numbersOfKey (Number_of_string : string -> option Q)
    (numCol : string) (keyOf : JS.object -> string) (k : string)
    (data : list JS.object) : list Q :=
  JS.filterNotNaN
    (map (fun d => numberAt Number_of_string d numCol)
         (rowsOfKey keyOf k data)).

(** The column kinds a chart type needs: at least [fst] numeric and [snd]
    categorical columns. *)
Definition needs (type : ChartTypeId) : nat * nat :=
  match type with
  | BAR => (1, 1)
  | SCATTER | HEATMAP => (2, 0)
  | _ => (1, 0)
  end%nat.

Definition sufficient (type : ChartTypeId) (columns : list Column.t)
    : bool :=
  (fst (needs type)
     <=? List.length (ChartRenderer.columnsOfType numeric columns))%nat
  && (snd (needs type)
        <=? List.length
              (ChartRenderer.columnsOfType categorical columns))%nat.

End Grouping.

(* ------------------------------------------------------------------ *)
(** ** Sample datasets with a categorical column *)

Module GroupExamples.

(** A conversion of numbers to text that is enough where no number is
    used as a category. *)
Definition noText (q : Q) : string := EmptyString.

Definition columns : list Column.t :=
  [Examples.column "c" categorical; Examples.column "n" numeric].

Definition rows : list JS.object :=
  [ [("c"%string, JS.VStr "b"); ("n"%string, JS.VNum 1)];
    [("c"%string, JS.VStr "a"); ("n"%string, JS.VNum 2)];
    [("c"%string, JS.VStr "b"); ("n"%string, JS.VNum 3)] ].

Definition bars : JSObject.dict Q :=
  ChartData.barGroups MockBackend.decimalNumber noText rows "c" "n".

Definition groups : JSObject.dict (list Q) :=
  ChartData.groupValues MockBackend.decimalNumber rows "n"
    (ChartData.boxKey noText (Some "c"%string)).

(** The same rows under a categorical column named "Category". *)
Definition categoryColumns : list Column.t :=
  [Examples.column "Category" categorical; Examples.column "n" numeric].

Definition categoryRows : list JS.object :=
  [ [("Category"%string, JS.VStr "b"); ("n"%string, JS.VNum 1)];
    [("Category"%string, JS.VStr "a"); ("n"%string, JS.VNum 2)] ].

End GroupExamples.

(* ------------------------------------------------------------------ *)
(** ** components/ChartRenderer.tsx: the geometry of the drawing *)

Module Rect.
Record t : Type := mk { x : Q; y : Q; width : Q; height : Q }.
End Rect.

Module BoxMarks.
(** The five heights at which a box is drawn. *)
Record t : Type := mk { yMax : Q; yMin : Q; yQ3 : Q; yQ1 : Q; yMed : Q }.
End BoxMarks.

Module Render.

Import ChartRenderer.

Definition width : Q := 600.
Definition height : Q := 350.
Definition padding : Q := 60.
Definition plotW : Q := width - padding * 2.
Definition plotH : Q := height - padding * 2.

Definition lengthOf {A} (a : list A) : Q :=
  inject_Z (Z.of_nat (List.length a)).

(** The bar chart, histogram included: one rectangle per value. *)
Definition barW (values : list Q) : Q := (plotW / lengthOf values) * 0.7.
Definition gap (values : list Q) : Q := (plotW / lengthOf values) * 0.3.

Definition barRects (values : list Q) : list Rect.t :=
  let maxVal := JS.Math_max values in
  JS.mapi (fun v i =>
             let barH := scale v 0 maxVal 0 plotH in
             let x := padding + gap values / 2
                      + inject_Z i * (barW values + gap values) in
             let y := height - padding - barH in
             Rect.mk x y (barW values) barH)
          values.

(** The line and area charts: one point per value. *)
Definition linePoints (values : list Q) : list (Q * Q) :=
  let min := JS.Math_min values in
  let max := JS.Math_max values in
  JS.mapi (fun v i =>
             let x := scale (inject_Z i) 0 (lengthOf values - 1)
                            padding (width - padding) in
             let y := scale v min max (height - padding) padding in
             (x, y))
          values.

(** The density chart: one point per point of the curve. *)
Definition densityPoints (points : list Point.t) (range : Q * Q)
    : list (Q * Q) :=
  let maxFreq := JS.Math_max (map Point.y points) in
  map (fun p =>
         let x := scale (Point.x p) (fst range) (snd range)
                        padding (width - padding) in
         let y := scale (Point.y p) 0 maxFreq (height - padding) padding in
         (x, y))
      points.

(** The heatmap: the square of the cell at position [i] of the matrix.
    [Math.floor(i / size)] and [i % size] are taken on whole numbers. *)
Definition cellSize (size : nat) : Q :=
  JS.min2 plotW plotH / inject_Z (Z.of_nat size).

Definition heatmapCell (size i : nat) : Rect.t :=
  let r := (i / size)%nat in
  let c := (i mod size)%nat in
  Rect.mk (padding + inject_Z (Z.of_nat c) * cellSize size)
          (padding + inject_Z (Z.of_nat r) * cellSize size)
          (cellSize size - 2) (cellSize size - 2).

(** The box plot: the heights of the whiskers, of the box and of the
    median line of one box. *)
Definition boxMarks (min max : Q) (sMin sQ1 sMedian sQ3 sMax : Q)
    : BoxMarks.t :=
  BoxMarks.mk (scale sMax min max (height - padding) padding)
              (scale sMin min max (height - padding) padding)
              (scale sQ3 min max (height - padding) padding)
              (scale sQ1 min max (height - padding) padding)
              (scale sMedian min max (height - padding) padding).

(** [Math.abs(yQ1 - yQ3)], the height of the rectangle of the box. *)
Definition boxHeight (m : BoxMarks.t) : Q :=
  Qabs (BoxMarks.yQ1 m - BoxMarks.yQ3 m).

End Render.

(* ------------------------------------------------------------------ *)
(** ** App.tsx: the state of the application and its handlers *)

Module DetectionResult.
Record t : Type := mk {
  chartType : string;
  confidence : Q;
  explanation : string;
  rCode : string;
  pythonCode : string
}.
End DetectionResult.

Module App.

Inductive VisualizationMode : Type := CSV | IMAGE.

Inductive Tab : Type := R_tab | Python_tab.

(** The state kept for the image detection flow. *)
Record ImageState : Type := mkImage {
  imageFile : option string;
  imagePreview : option string;
  detectionResult : option DetectionResult.t;
  isDetecting : bool;
  showApiKeyModal : bool;
  apiKeyInput : string
}.

(** The [useState] cells of the component, and the calls of [analyzeCSV]
    that were started by [handleCsvUpload] and have not settled yet. *)
Record State : Type := mkState {
  mode : option VisualizationMode;
  csvFile : option MockBackend.File;
  datasetStats : option DatasetStats.t;
  isAnalyzingCsv : bool;
  selectedChart : option ChartTypeId;
  activeTab : Tab;
  image : ImageState;
  inFlight : list MockBackend.File
}.

Definition initialImage : ImageState :=
  mkImage None None None false false EmptyString.

Definition initial : State :=
  mkState None None None false None R_tab initialImage [].

Definition setMode (m : VisualizationMode) (s : State) : State :=
  mkState (Some m) (csvFile s) (datasetStats s) (isAnalyzingCsv s)
          (selectedChart s) (activeTab s) (image s) (inFlight s).

Definition setSelectedChart (c : option ChartTypeId) (s : State) : State :=
  mkState (mode s) (csvFile s) (datasetStats s) (isAnalyzingCsv s)
          c (activeTab s) (image s) (inFlight s).

Definition setActiveTab (t : Tab) (s : State) : State :=
  mkState (mode s) (csvFile s) (datasetStats s) (isAnalyzingCsv s)
          (selectedChart s) t (image s) (inFlight s).

Definition setImage (i : ImageState) (s : State) : State :=
  mkState (mode s) (csvFile s) (datasetStats s) (isAnalyzingCsv s)
          (selectedChart s) (activeTab s) i (inFlight s).

(** [resetAll]: the mode, the file, the summary, the chart and the three
    image cells go back to [null]; calls in flight are not cancelled. *)
Definition resetAll (s : State) : State :=
  mkState None None None (isAnalyzingCsv s) None (activeTab s)
          (mkImage None None None
                   (isDetecting (image s)) (showApiKeyModal (image s))
                   (apiKeyInput (image s)))
          (inFlight s).

(** [handleCsvUpload], up to its [await]. *)
Definition uploadStarts (file : MockBackend.File) (s : State) : State :=
  mkState (mode s) (Some file) (datasetStats s) true
          (selectedChart s) (activeTab s) (image s) (file :: inFlight s).

(** [handleCsvUpload], from its [await] on: the summary is stored when the
    promise resolves, an alert is shown when it rejects, and the flag is
    lowered in both cases. *)
Definition uploadSettles (outcome : Promise DatasetStats.t)
    (rest : list MockBackend.File) (s : State) : State :=
  mkState (mode s) (csvFile s)
          (match outcome with
           | Resolved stats => Some stats
           | Rejected _ => datasetStats s
           end)
          false (selectedChart s) (activeTab s) (image s) rest.

Section WithNumber.

Variable Number_of_string : string -> option Q.

(** One event of the application.  Each handler can run only while the
    element that carries it is rendered; the handlers of the image flow
    write the image cells only. *)
Inductive step : State -> State -> Prop :=
| ChooseMode s m :
    mode s = None -> step s (setMode m s)
| ResetAll s :
    mode s <> None -> step s (resetAll s)
| UploadStarts s file :
    mode s = Some CSV -> datasetStats s = None ->
    step s (uploadStarts file s)
| UploadSettles s before file after :
    inFlight s = before ++ file :: after ->
    step s (uploadSettles (MockBackend.analyzeCSV Number_of_string file)
                          (before ++ after) s)
| SelectChart s c :
    mode s = Some CSV -> datasetStats s <> None -> selectedChart s = None ->
    step s (setSelectedChart (Some c) s)
| BackToSelection s :
    mode s = Some CSV -> selectedChart s <> None ->
    step s (setSelectedChart None s)
| ChooseTab s t :
    mode s <> None -> step s (setActiveTab t s)
| ImageFlow s i :
    mode s = Some IMAGE -> step s (setImage i s).

Inductive reachable : State -> Prop :=
| reachable_initial : reachable initial
| reachable_step s s' : reachable s -> step s s' -> reachable s'.

(** What the proofs show of every reachable state: a chart is selected
    only while a summary is stored, and a stored summary comes from a
    successful analysis. *)
Definition invariant (s : State) : Prop :=
  (selectedChart s <> None -> datasetStats s <> None)
  /\ (forall stats, datasetStats s = Some stats ->
        exists file,
          MockBackend.analyzeCSV Number_of_string file = Resolved stats).

End WithNumber.

(** The chart view of the scenario file: CSV mode chosen, the file
    uploaded and analysed, the histogram selected. *)
Definition scenarioChartView : State :=
  setSelectedChart (Some HISTOGRAM)
    (uploadSettles
       (MockBackend.analyzeCSV MockBackend.decimalNumber
                               MockBackend.scenarioFile)
       []
       (uploadStarts MockBackend.scenarioFile (setMode CSV initial))).

End App.

(* ================================================================== *)
(** * Properties *)

(** ** The linear scale *)

(** C7. Whatever the value and the output bounds, [scale] answers the
    midpoint of the output range when the input range is degenerate
    ([min] and [max] are the same number). *)
Theorem scale_degenerate_midpoint (v a o1 o2 : Q) :
  ChartRenderer.scale v a a o1 o2 = (o1 + o2) / 2.
Proof.
  unfold ChartRenderer.scale.
  now rewrite Qeq_bool_refl.
Qed.

(** ** Sorting and the five-number summary *)

Section Sorting.

Lemma compareFn_le (a b : Q) :
  Qle_bool (JS.compareFn a b) 0 = true <-> a <= b.
Proof.
  unfold JS.compareFn. rewrite Qle_bool_iff. split; intro H; lra.
Qed.

Lemma insert_length (v : Q) (a : list Q) :
  List.length (JS.insert v a) = S (List.length a).
Proof.
  induction a as [|w a IH]; simpl; [reflexivity|].
  destruct (Qle_bool _ _); simpl; congruence.
Qed.

Lemma sort_length (a : list Q) : List.length (JS.sort a) = List.length a.
Proof.
  induction a as [|v a IH]; simpl; [reflexivity|].
  now rewrite insert_length, IH.
Qed.

Lemma insert_Forall (P : Q -> Prop) (v : Q) (a : list Q) :
  P v -> Forall P a -> Forall P (JS.insert v a).
Proof.
  intros Hv Ha. induction Ha as [|w a Hw Ha IH]; simpl.
  - now constructor.
  - destruct (Qle_bool _ _); repeat constructor; assumption.
Qed.

Lemma insert_sorted (v : Q) (a : list Q) :
  StronglySorted Qle a -> StronglySorted Qle (JS.insert v a).
Proof.
  induction 1 as [|w a Hs IH Hall]; simpl.
  - repeat constructor.
  - destruct (Qle_bool (JS.compareFn v w) 0) eqn:E.
    + apply compareFn_le in E.
      constructor; [now constructor|].
      constructor; [assumption|].
      eapply Forall_impl; [|exact Hall].
      intros x Hx. now apply Qle_trans with w.
    + assert (w <= v) as Hwv.
      { apply Qlt_le_weak, Qnot_le_lt. intro C.
        apply compareFn_le in C. congruence. }
      constructor; [assumption|].
      now apply insert_Forall.
Qed.

Lemma sort_sorted (a : list Q) : StronglySorted Qle (JS.sort a).
Proof.
  induction a as [|v a IH]; simpl; [constructor|].
  now apply insert_sorted.
Qed.

Lemma sorted_nth_error_le (a : list Q) :
  StronglySorted Qle a ->
  forall i j x y, (i <= j)%nat ->
    nth_error a i = Some x -> nth_error a j = Some y -> x <= y.
Proof.
  induction 1 as [|w a Hs IH Hall]; intros i j x y Hij Hi Hj.
  - destruct i; discriminate.
  - destruct i as [|i], j as [|j]; simpl in *.
    + injection Hi as <-. injection Hj as <-. apply Qle_refl.
    + injection Hi as <-.
      rewrite Forall_forall in Hall. apply Hall.
      eapply nth_error_In; eassumption.
    + lia.
    + eapply IH; [|eassumption..]. lia.
Qed.

Lemma index_in_range {A} (a : list A) (i : Z) :
  (0 <= i < Z.of_nat (List.length a))%Z ->
  exists x, JS.index a i = Some x /\ nth_error a (Z.to_nat i) = Some x.
Proof.
  intros Hi. unfold JS.index.
  destruct (Z.ltb_spec i 0); [lia|].
  destruct (nth_error a (Z.to_nat i)) as [x|] eqn:E.
  - now exists x.
  - apply nth_error_None in E. lia.
Qed.

(** The floor index of a fraction [0 <= q < 1] of a positive length lies
    inside the array, and grows with the fraction. *)
Lemma floor_index_bounds (n : Z) (q : Q) :
  (0 < n)%Z -> 0 <= q -> q < 1 ->
  (0 <= Qfloor (inject_Z n * q) < n)%Z.
Proof.
  intros Hn Hq0 Hq1.
  assert (0 < inject_Z n) as Hn'.
  { change 0 with (inject_Z 0). rewrite <- Zlt_Qlt. exact Hn. }
  split.
  - change 0%Z with (Qfloor 0). apply Qfloor_resp_le.
    apply Qmult_le_0_compat; [now apply Qlt_le_weak | assumption].
  - apply Z.lt_nge. intro C.
    rewrite Zle_Qle in C.
    pose proof (Qfloor_le (inject_Z n * q)) as F.
    assert (inject_Z n * q < inject_Z n * 1) as L
      by (now apply Qmult_lt_l).
    rewrite Qmult_1_r in L.
    lra.
Qed.

Lemma floor_index_mono (n : Z) (p q : Q) :
  (0 < n)%Z -> p <= q ->
  (Qfloor (inject_Z n * p) <= Qfloor (inject_Z n * q))%Z.
Proof.
  intros Hn Hpq. apply Qfloor_resp_le.
  assert (0 < inject_Z n)
    by (change 0 with (inject_Z 0); rewrite <- Zlt_Qlt; exact Hn).
  now apply Qmult_le_l.
Qed.

End Sorting.

(** C9. On the empty list [getQuantiles] answers the summary whose five
    fields are all zero; no element of the (empty) array is read. *)
Theorem getQuantiles_empty :
  ChartRenderer.getQuantiles [] =
  Quantiles.mk (Some 0) (Some 0) (Some 0) (Some 0) (Some 0).
Proof. reflexivity. Qed.

(** C6. For a non-empty list the five fields of the summary are elements
    read inside the sorted array, at the indices [0], [floor(n*0.25)],
    [floor(n*0.5)], [floor(n*0.75)] and [n-1], and they are in order:
    min <= q1 <= median <= q3 <= max.  For the column [1,2,3,4,100] the
    quartiles are 2, 3 and 4. *)
Theorem getQuantiles_ordered (data : list Q) (Hne : data <> []) :
  (exists lo a b c hi,
      ChartRenderer.getQuantiles data =
        Quantiles.mk (Some lo) (Some a) (Some b) (Some c) (Some hi)
      /\ lo <= a /\ a <= b /\ b <= c /\ c <= hi)
  /\ Quantiles.q1 (ChartRenderer.getQuantiles [1; 2; 3; 4; 100]) = Some 2
  /\ Quantiles.median (ChartRenderer.getQuantiles [1; 2; 3; 4; 100]) = Some 3
  /\ Quantiles.q3 (ChartRenderer.getQuantiles [1; 2; 3; 4; 100]) = Some 4.
Proof.
  split; [|repeat split; reflexivity].
  unfold ChartRenderer.getQuantiles.
  destruct data as [|d0 data']; [congruence|].
  set (sorted := JS.sort (d0 :: data')).
  set (n := Z.of_nat (List.length sorted)).
  assert (0 < n)%Z as Hn.
  { unfold n, sorted. rewrite sort_length. simpl. lia. }
  pose proof (sort_sorted (d0 :: data')) as Hs. fold sorted in Hs.
  pose proof (floor_index_bounds n 0.25 Hn ltac:(lra) ltac:(lra)) as B1.
  pose proof (floor_index_bounds n 0.5 Hn ltac:(lra) ltac:(lra)) as B2.
  pose proof (floor_index_bounds n 0.75 Hn ltac:(lra) ltac:(lra)) as B3.
  pose proof (floor_index_mono n 0.25 0.5 Hn ltac:(lra)) as M12.
  pose proof (floor_index_mono n 0.5 0.75 Hn ltac:(lra)) as M23.
  destruct (index_in_range sorted 0) as (lo & E0 & N0); [fold n; lia|].
  destruct (index_in_range sorted _ B1) as (a & E1 & N1).
  destruct (index_in_range sorted _ B2) as (b & E2 & N2).
  destruct (index_in_range sorted _ B3) as (c & E3 & N3).
  destruct (index_in_range sorted (n - 1)) as (hi & E4 & N4); [fold n; lia|].
  exists lo, a, b, c, hi.
  rewrite E0, E1, E2, E3, E4.
  split; [reflexivity|].
  repeat split.
  - eapply (sorted_nth_error_le sorted Hs); [|exact N0|exact N1]. lia.
  - eapply (sorted_nth_error_le sorted Hs); [|exact N1|exact N2]. lia.
  - eapply (sorted_nth_error_le sorted Hs); [|exact N2|exact N3]. lia.
  - eapply (sorted_nth_error_le sorted Hs); [|exact N3|exact N4]. lia.
Qed.

Lemma getQuantiles_ordered_witness :
  [1; 2; 3; 4; 100] <> [] /\
  Quantiles.q1 (ChartRenderer.getQuantiles [1; 2; 3; 4; 100]) = Some 2.
Proof.
  split; [discriminate|].
  apply (getQuantiles_ordered [1; 2; 3; 4; 100]). discriminate.
Defined.

(** ** The sampler *)

Section Sampler.

Import MockBackend.

Variable N : string -> option Q.

Lemma mapIndexed_length {A B} (f : A -> nat -> B) (a : list A) (i : nat) :
  List.length (mapIndexed i f a) = List.length a.
Proof.
  revert i. induction a as [|v a IH]; intros i; simpl; [reflexivity|].
  now rewrite IH.
Qed.

Lemma slice_length_le {A} (i j : nat) (a : list A) :
  (List.length (JS.slice i j a) <= j - i)%nat.
Proof. unfold JS.slice. apply firstn_le_length. Qed.

(** The three outcomes of [analyzeCSV], by the two tests it performs. *)
Lemma analyzeCSV_cases (file : File) :
  (readChunk file = EmptyString /\
   analyzeCSV N file = Rejected "Empty file")
  \/ (readChunk file <> EmptyString /\
      (List.length (sampledLines file) < 2)%nat /\
      analyzeCSV N file = Rejected "Invalid CSV: Not enough rows")
  \/ (readChunk file <> EmptyString /\
      (2 <= List.length (sampledLines file))%nat /\
      exists stats,
        analyzeCSV N file = Resolved stats /\
        DatasetStats.rowCount stats
          = estimatedTotalRows file (sampledLines file) /\
        DatasetStats.colCount stats
          = List.length (DatasetStats.columns stats) /\
        (List.length (DatasetStats.data stats) <= 100)%nat).
Proof.
  unfold analyzeCSV.
  destruct (readChunk file) as [|c t] eqn:Etext.
  - left. split; reflexivity.
  - right.
    destruct (Nat.ltb_spec (List.length (sampledLines file)) 2) as [Hlt|Hge].
    + left. repeat split; [discriminate | exact Hlt].
    + right. repeat split; [discriminate | exact Hge |].
      eexists. split; [reflexivity|]. simpl.
      repeat split.
      * now rewrite mapIndexed_length, length_map.
      * rewrite length_map.
        apply (slice_length_le 1 101).
Qed.

Lemma estimate_above_sample (size lines : Z) :
  (size > CHUNK_SIZE)%Z -> (0 <= lines)%Z ->
  (lines <= Qfloor ((inject_Z size / inject_Z CHUNK_SIZE) * inject_Z lines))%Z.
Proof.
  intros Hs Hl.
  rewrite <- (Qfloor_Z lines) at 1.
  apply Qfloor_resp_le.
  assert (0 <= inject_Z lines) as Hl'.
  { change 0 with (inject_Z 0). rewrite <- Zle_Qle. exact Hl. }
  assert (1 <= inject_Z size / inject_Z CHUNK_SIZE) as Hq.
  { apply Qle_shift_div_l; [reflexivity|].
    rewrite Qmult_1_l. rewrite <- Zle_Qle. lia. }
  rewrite <- (Qmult_1_l (inject_Z lines)) at 1.
  now apply Qmult_le_compat_r.
Qed.



End Sampler.


(** ** Binning *)

Section Binning.

Import ChartRenderer.

Lemma min2_le_l (a b : Q) : JS.min2 a b <= a.
Proof.
  unfold JS.min2. destruct (Qle_bool a b) eqn:E; [apply Qle_refl|].
  apply Qlt_le_weak, Qnot_le_lt. intro C.
  apply Qle_bool_iff in C. congruence.
Qed.

Lemma min2_le_r (a b : Q) : JS.min2 a b <= b.
Proof.
  unfold JS.min2. destruct (Qle_bool a b) eqn:E; [|apply Qle_refl].
  now apply Qle_bool_iff.
Qed.

Lemma max2_ge_l (a b : Q) : a <= JS.max2 a b.
Proof.
  unfold JS.max2. destruct (Qle_bool a b) eqn:E; [|apply Qle_refl].
  now apply Qle_bool_iff.
Qed.

Lemma max2_ge_r (a b : Q) : b <= JS.max2 a b.
Proof.
  unfold JS.max2. destruct (Qle_bool a b) eqn:E; [apply Qle_refl|].
  apply Qlt_le_weak, Qnot_le_lt. intro C.
  apply Qle_bool_iff in C. congruence.
Qed.

Lemma fold_min2_le (a : list Q) (acc x : Q) :
  x = acc \/ In x a -> fold_left JS.min2 a acc <= x.
Proof.
  revert acc x. induction a as [|w a IH]; intros acc x [->|Hin]; simpl.
  - apply Qle_refl.
  - destruct Hin.
  - eapply Qle_trans; [apply IH; now left | apply min2_le_l].
  - destruct Hin as [->|Hin].
    + eapply Qle_trans; [apply IH; now left | apply min2_le_r].
    + apply IH. now right.
Qed.

Lemma fold_max2_ge (a : list Q) (acc x : Q) :
  x = acc \/ In x a -> x <= fold_left JS.max2 a acc.
Proof.
  revert acc x. induction a as [|w a IH]; intros acc x [->|Hin]; simpl.
  - apply Qle_refl.
  - destruct Hin.
  - eapply Qle_trans; [apply max2_ge_l | apply IH; now left].
  - destruct Hin as [->|Hin].
    + eapply Qle_trans; [apply max2_ge_r | apply IH; now left].
    + apply IH. now right.
Qed.

Lemma Math_min_le (data : list Q) (v : Q) :
  In v data -> JS.Math_min data <= v.
Proof.
  destruct data as [|d data]; intros Hin; [destruct Hin|].
  apply fold_min2_le. destruct Hin; [left; congruence | now right].
Qed.

Lemma Math_max_ge (data : list Q) (v : Q) :
  In v data -> v <= JS.Math_max data.
Proof.
  destruct data as [|d data]; intros Hin; [destruct Hin|].
  apply fold_max2_ge. destruct Hin; [left; congruence | now right].
Qed.

Lemma Math_min_le_max (data : list Q) :
  JS.Math_min data <= JS.Math_max data.
Proof.
  destruct data as [|d data]; [apply Qle_refl|].
  apply Qle_trans with d;
    [apply Math_min_le | apply Math_max_ge]; now left.
Qed.

Lemma or_one_positive (q : Q) : 0 <= q -> 0 < JS.or q 1.
Proof.
  intros Hq. unfold JS.or, JS.truthy.
  destruct (Qeq_bool q 0) eqn:E; simpl; [reflexivity|].
  apply Qeq_bool_neq in E.
  apply Qle_lt_or_eq in Hq. destruct Hq as [Hq|Hq]; [exact Hq|].
  exfalso. apply E. now symmetry.
Qed.

Lemma or_one_of_zero (q : Q) : q == 0 -> JS.or q 1 = 1.
Proof.
  intros Hq. unfold JS.or, JS.truthy.
  apply Qeq_bool_iff in Hq. now rewrite Hq.
Qed.

Lemma or_one_of_nonzero (q : Q) : ~ q == 0 -> JS.or q 1 = q.
Proof.
  intros Hq. unfold JS.or, JS.truthy.
  destruct (Qeq_bool q 0) eqn:E; [|reflexivity].
  apply Qeq_bool_iff in E. contradiction.
Qed.

Lemma div_nonneg (a b : Q) : 0 <= a -> 0 < b -> 0 <= a / b.
Proof.
  intros Ha Hb. apply Qle_shift_div_l; [exact Hb|].
  now rewrite Qmult_0_l.
Qed.

Lemma div_zero_numerator (a b : Q) : ~ b == 0 -> a / b == 0 -> a == 0.
Proof.
  intros Hb Hq.
  apply Qeq_trans with (a / b * b); [field; exact Hb|].
  rewrite Hq. apply Qmult_0_l.
Qed.

Lemma floor_nonneg (q : Q) : 0 <= q -> (0 <= Qfloor q)%Z.
Proof.
  intros Hq. change 0%Z with (Qfloor 0). now apply Qfloor_resp_le.
Qed.

Lemma histogramBinSize_positive (vals : list Q) :
  0 < histogramBinSize vals.
Proof.
  unfold histogramBinSize. apply or_one_positive.
  apply div_nonneg; [|reflexivity].
  pose proof (Math_min_le_max vals). lra.
Qed.

Lemma densityRange_positive (data : list Q) : 0 < densityRange data.
Proof.
  unfold densityRange. apply or_one_positive.
  pose proof (Math_min_le_max data). lra.
Qed.

Lemma histogramIndex_bounds (vals : list Q) (v : Q) :
  In v vals ->
  (0 <= histogramIndex (JS.Math_min vals) (histogramBinSize vals) v
     < Z.of_nat histogramBinCount)%Z.
Proof.
  intros Hin. unfold histogramIndex.
  assert (0 <= Qfloor ((v - JS.Math_min vals) / histogramBinSize vals))%Z.
  { apply floor_nonneg, div_nonneg; [|apply histogramBinSize_positive].
    pose proof (Math_min_le vals v Hin). lra. }
  unfold histogramBinCount in *. lia.
Qed.

Lemma densityIndex_bounds (data : list Q) (binCount : nat) (v : Q) :
  (0 < binCount)%nat -> In v data ->
  (0 <= densityIndex (JS.Math_min data) (densityRange data) binCount v
     < Z.of_nat binCount)%Z.
Proof.
  intros Hbins Hin. unfold densityIndex.
  assert (0 <= Qfloor ((v - JS.Math_min data) / densityRange data
                       * inject_Z (Z.of_nat binCount)))%Z.
  { apply floor_nonneg, Qmult_le_0_compat.
    - apply div_nonneg; [|apply densityRange_positive].
      pose proof (Math_min_le data v Hin). lra.
    - change 0 with (inject_Z 0). rewrite <- Zle_Qle. lia. }
  lia.
Qed.

Lemma incrementAt_length (bins : list Z) (n : nat) :
  List.length (incrementAt bins n) = List.length bins.
Proof.
  revert n. induction bins as [|b bins IH]; intros [|n]; simpl; congruence.
Qed.

Lemma increment_length (bins : list Z) (idx : Z) :
  List.length (increment bins idx) = List.length bins.
Proof.
  unfold increment. destruct (idx <? 0)%Z; [reflexivity|].
  apply incrementAt_length.
Qed.

Lemma incrementAt_total (bins : list Z) (n : nat) :
  (n < List.length bins)%nat ->
  Reference.total (incrementAt bins n) = (Reference.total bins + 1)%Z.
Proof.
  revert n. induction bins as [|b bins IH]; intros [|n] Hn; simpl in *;
    try lia.
  rewrite IH; lia.
Qed.

Lemma increment_total (bins : list Z) (idx : Z) :
  (0 <= idx < Z.of_nat (List.length bins))%Z ->
  Reference.total (increment bins idx) = (Reference.total bins + 1)%Z.
Proof.
  intros Hidx. unfold increment.
  destruct (Z.ltb_spec idx 0); [lia|].
  apply incrementAt_total. lia.
Qed.

(** Counting a list of values into an array, every index being inside the
    array: the length is kept and the sum grows by the number of values. *)
Lemma count_into_bins (f : Q -> Z) (vals : list Q) (bins : list Z) :
  (forall v, In v vals -> (0 <= f v < Z.of_nat (List.length bins))%Z) ->
  let bins' := fold_left (fun bins v => increment bins (f v)) vals bins in
  List.length bins' = List.length bins
  /\ Reference.total bins'
     = (Reference.total bins + Z.of_nat (List.length vals))%Z.
Proof.
  revert bins. induction vals as [|v vals IH]; intros bins Hf; simpl.
  - split; [reflexivity | lia].
  - destruct (IH (increment bins (f v))) as [Hlen Htot].
    + intros w Hw. rewrite increment_length. apply Hf. now right.
    + rewrite Hlen, Htot, increment_length, increment_total;
        [split; [reflexivity | lia]|].
      apply Hf. now left.
Qed.

Lemma total_repeat_zero (n : nat) : Reference.total (repeat 0%Z n) = 0%Z.
Proof. induction n as [|n IH]; simpl; [reflexivity | exact IH]. Qed.

Lemma histogramBins_total (vals : list Q) :
  List.length (histogramBins vals) = histogramBinCount
  /\ Reference.total (histogramBins vals) = Z.of_nat (List.length vals).
Proof.
  unfold histogramBins.
  destruct (count_into_bins
              (histogramIndex (JS.Math_min vals) (histogramBinSize vals))
              vals (repeat 0%Z histogramBinCount)) as [Hlen Htot].
  - intros v Hv. rewrite repeat_length. now apply histogramIndex_bounds.
  - rewrite Hlen, Htot, repeat_length, total_repeat_zero. split; reflexivity.
Qed.

Lemma densityBins_total (data : list Q) (binCount : nat) :
  (0 < binCount)%nat ->
  List.length (densityBins data binCount) = binCount
  /\ Reference.total (densityBins data binCount)
     = Z.of_nat (List.length data).
Proof.
  intros Hbins. unfold densityBins.
  destruct (count_into_bins
              (densityIndex (JS.Math_min data) (densityRange data) binCount)
              data (repeat 0%Z binCount)) as [Hlen Htot].
  - intros v Hv. rewrite repeat_length. now apply densityIndex_bounds.
  - rewrite Hlen, Htot, repeat_length, total_repeat_zero. split; reflexivity.
Qed.

End Binning.

(** ** The histogram *)

Section Histogram.

Import ChartRenderer.

Variable N : string -> option Q.

Lemma getNums_length (data : list JS.object) (col : string) :
  List.length (getNums N data col)
  = List.length (Reference.numericRows N data col).
Proof.
  unfold getNums, Reference.numericRows.
  induction data as [|d data IH]; simpl; [reflexivity|].
  destruct (Number N (JS.get d col)); simpl; congruence.
Qed.


End Histogram.


(** ** Clamping of the bin index *)

Section Clamp.

Import ChartRenderer.

Lemma clamp_zero (n : Z) : (0 < n)%Z -> Z.min 0 (n - 1) = 0%Z.
Proof. lia. Qed.

Lemma all_equal_offset (data : list Q) (v : Q) :
  In v data -> JS.Math_min data == JS.Math_max data ->
  v - JS.Math_min data == 0.
Proof.
  intros Hin Hm.
  pose proof (Math_min_le data v Hin).
  pose proof (Math_max_ge data v Hin).
  lra.
Qed.




End Clamp.

(** ** Smoothing of the bin counts *)

Section Smoothing.

Import ChartRenderer.

Lemma mapi_from_ext {A B} (f g : A -> Z -> B) (a : list A) (i : Z) :
  (forall v j, f v j = g v j) -> JS.mapi_from i f a = JS.mapi_from i g a.
Proof.
  intros Hfg. revert i. induction a as [|v a IH]; intros i; simpl;
    [reflexivity|].
  now rewrite Hfg, IH.
Qed.

Lemma map_mapi_from {A B C} (h : B -> C) (f : A -> Z -> B) (a : list A)
    (i : Z) :
  map h (JS.mapi_from i f a) = JS.mapi_from i (fun v j => h (f v j)) a.
Proof.
  revert i. induction a as [|v a IH]; intros i; simpl; [reflexivity|].
  now rewrite IH.
Qed.

Lemma mapi_from_id {A} (a : list A) (i : Z) :
  JS.mapi_from i (fun v _ => v) a = a.
Proof.
  revert i. induction a as [|v a IH]; intros i; simpl; [reflexivity|].
  now rewrite IH.
Qed.

(** The heights of the density curve are the smoothed bin counts. *)
Lemma getDensity_heights (data : list Q) (binCount : nat) :
  data <> [] ->
  map Point.y (getDensity data binCount)
  = smooth (densityBins data binCount).
Proof.
  intros Hne. unfold getDensity.
  destruct data as [|d data]; [congruence|].
  unfold JS.mapi. rewrite map_mapi_from. simpl Point.y.
  apply mapi_from_id.
Qed.

Lemma index_In {A} (a : list A) (i : Z) (v : A) :
  JS.index a i = Some v -> In v a.
Proof.
  unfold JS.index. destruct (i <? 0)%Z; [discriminate|].
  apply nth_error_In.
Qed.

(** Where no bin is empty, the smoothing of the code is the smoothing the
    specification describes. *)
Lemma smooth_as_specified_without_empty_bin (bins : list Z) :
  Forall (fun b => b <> 0%Z) bins ->
  smooth bins = Reference.smoothAsSpecified bins.
Proof.
  intros Hall. unfold smooth, Reference.smoothAsSpecified, JS.mapi.
  assert (forall e val, (forall n, e = Some n -> In n bins) ->
            elementOr e val = Reference.neighbour e val) as Hsame.
  { intros [n|] val Hin; simpl; [|reflexivity].
    rewrite Forall_forall in Hall.
    destruct (Z.eqb_spec n 0) as [->|]; [|reflexivity].
    exfalso. now apply (Hall 0%Z (Hin 0%Z eq_refl)). }
  apply mapi_from_ext. intros val i.
  rewrite !Hsame; [reflexivity|..]; intros n; apply index_In.
Qed.

(** C1, at the data [[0, 30]] with 30 bins.  The counts are 1 in the first
    and in the last bin and 0 in between.  The neighbour of the first bin is
    inside the array and holds 0, yet the code replaces it by the current
    count: the first smoothed value is (1 + 2 + 1)/4 = 1, where the moving
    average with the actual count of the neighbour gives (1 + 2 + 0)/4. *)
Theorem smoothing_replaces_empty_neighbour :
  densityBins [0; 30] 30 = (1 :: repeat 0 28 ++ [1])%Z
  /\ JS.index (densityBins [0; 30] 30) 1 = Some 0%Z
  /\ (exists p, JS.index (getDensity [0; 30] 30) 0 = Some p
                /\ Point.y p == 1)
  /\ (exists q,
        JS.index (Reference.smoothAsSpecified (densityBins [0; 30] 30)) 0
          = Some q
        /\ q == 3 # 4)
  /\ map Point.y (getDensity [0; 30] 30)
     <> Reference.smoothAsSpecified (densityBins [0; 30] 30).
Proof.
  split; [reflexivity|].
  split; [reflexivity|].
  split; [eexists; split; [reflexivity | reflexivity]|].
  split; [eexists; split; [reflexivity | reflexivity]|].
  vm_compute. discriminate.
Qed.

End Smoothing.

(** ** Pearson correlation and the heatmap *)

Section Correlation.

Import ChartRenderer.

Local Open Scope R_scope.

Lemma fold_sum_acc (x : list R) (acc : R) :
  fold_left Rplus x acc = acc + sum x.
Proof.
  unfold sum. revert acc. induction x as [|a x IH]; intros acc; simpl.
  - lra.
  - rewrite IH, (IH (0 + a)). lra.
Qed.

Lemma fold_squares_acc (x : list R) (acc : R) :
  fold_left (fun s xi => s + xi * xi) x acc = acc + sumSquares x.
Proof.
  unfold sumSquares. revert acc. induction x as [|a x IH]; intros acc; simpl.
  - lra.
  - rewrite IH, (IH (0 + a * a)). lra.
Qed.

Lemma sum_cons (a : R) (x : list R) : sum (a :: x) = a + sum x.
Proof. unfold sum at 1. simpl. rewrite fold_sum_acc. lra. Qed.

Lemma sumSquares_cons (a : R) (x : list R) :
  sumSquares (a :: x) = a * a + sumSquares x.
Proof. unfold sumSquares at 1. simpl. rewrite fold_squares_acc. lra. Qed.

(** Read against itself, the sum of products is the sum of squares. *)
Lemma sumProducts_self (x pre : list R) (acc : R) :
  sumProducts (List.length pre) x (pre ++ x) acc = acc + sumSquares x.
Proof.
  revert pre acc. induction x as [|a x IH]; intros pre acc; simpl.
  - unfold sumSquares. simpl. lra.
  - rewrite nth_middle.
    replace (pre ++ a :: x)%list with ((pre ++ [a]) ++ x)%list
      by (rewrite <- app_assoc; reflexivity).
    replace (S (List.length pre)) with (List.length (pre ++ [a])%list)
      by (rewrite length_app; simpl; lia).
    rewrite IH, sumSquares_cons. lra.
Qed.

(** The squared distances of the values to any point add up to a
    non-negative number ... *)
Lemma squared_distances_nonneg (x : list R) (c : R) :
  0 <= sumSquares x - 2 * c * sum x + INR (List.length x) * (c * c).
Proof.
  induction x as [|a x IH].
  - unfold sumSquares, sum. simpl. lra.
  - rewrite sumSquares_cons, sum_cons.
    change (List.length (a :: x)) with (S (List.length x)).
    rewrite S_INR.
    pose proof (Rle_0_sqr (a - c)) as Hsq. unfold Rsqr in Hsq. lra.
Qed.

(** ... hence the variance term is never negative. *)
Lemma spread_nonneg (x : list R) : 0 <= Reference.spread x.
Proof.
  unfold Reference.spread.
  induction x as [|a x IH].
  - unfold sumSquares, sum. simpl. lra.
  - rewrite sumSquares_cons, sum_cons.
    change (List.length (a :: x)) with (S (List.length x)).
    rewrite S_INR.
    pose proof (squared_distances_nonneg x a). lra.
Qed.

(** The squared distances to [c] vanish exactly when every value is [c]. *)
Lemma squared_distances_zero (x : list R) (c : R) :
  sumSquares x - 2 * c * sum x + INR (List.length x) * (c * c) = 0
  <-> Forall (fun a => a = c) x.
Proof.
  induction x as [|a x IH].
  - split; [constructor|]. intros _. unfold sumSquares, sum. simpl. lra.
  - rewrite sumSquares_cons, sum_cons.
    change (List.length (a :: x)) with (S (List.length x)).
    rewrite S_INR.
    pose proof (squared_distances_nonneg x c) as Hrest.
    pose proof (Rle_0_sqr (a - c)) as Hsq. unfold Rsqr in Hsq.
    split.
    + intros H.
      assert ((a - c) * (a - c) = 0) as Ha by lra.
      constructor.
      * apply Rmult_integral in Ha. lra.
      * apply IH. lra.
    + intros H. inversion H as [|? ? Ha Hx]; subst.
      apply IH in Hx. lra.
Qed.

(** The variance term vanishes exactly when all the values are equal. *)
Lemma spread_zero_iff_constant (x : list R) :
  Reference.spread x = 0
  <-> (forall a b, In a x -> In b x -> a = b).
Proof.
  unfold Reference.spread.
  induction x as [|a x IH].
  - split; [intros _ ? ? []|]. intros _. unfold sumSquares, sum. simpl. lra.
  - rewrite sumSquares_cons, sum_cons.
    change (List.length (a :: x)) with (S (List.length x)).
    rewrite S_INR.
    pose proof (squared_distances_nonneg x a) as Hd.
    pose proof (spread_nonneg x) as Hs. unfold Reference.spread in Hs.
    split.
    + intros H.
      assert (Forall (fun b => b = a) x) as Hall
        by (apply squared_distances_zero; lra).
      rewrite Forall_forall in Hall.
      assert (forall b, In b (a :: x) -> b = a) as Hhead
        by (intros b [<-|Hb]; [reflexivity | now apply Hall]).
      intros b c Hb Hc. now rewrite (Hhead b Hb), (Hhead c Hc).
    + intros H.
      assert (Forall (fun b => b = a) x) as Hall.
      { apply Forall_forall. intros b Hb.
        apply H; [now right | now left]. }
      apply squared_distances_zero in Hall.
      assert (INR (List.length x) * sumSquares x - sum x * sum x = 0) as Hx.
      { apply IH. intros b c Hb Hc. apply H; now right. }
      lra.
Qed.

(** The correlation of a list with itself: 1 when the variance term is not
    zero, 0 when it is. *)
Lemma calculateCorrelation_self (x : list R) :
  (Reference.spread x <> 0 -> calculateCorrelation x x = 1)
  /\ (Reference.spread x = 0 -> calculateCorrelation x x = 0).
Proof.
  unfold calculateCorrelation.
  rewrite Nat.eqb_refl. simpl negb. simpl orb.
  destruct (Nat.eqb_spec (List.length x) 0) as [Hzero|Hpos].
  - split; [|reflexivity].
    intros Hs. exfalso. apply Hs. unfold Reference.spread.
    apply length_zero_iff_nil in Hzero. subst x.
    unfold sumSquares, sum. simpl. lra.
  - pose proof (sumProducts_self x [] 0) as Hp.
    change (sumProducts 0 x x 0 = 0 + sumSquares x) in Hp.
    rewrite Hp.
    replace (0 + sumSquares x) with (sumSquares x) by lra.
    fold (Reference.spread x).
    rewrite sqrt_square by apply spread_nonneg.
    destruct (Req_dec_T (Reference.spread x) 0) as [E|E].
    + split; [contradiction | reflexivity].
    + split; [intros _; now field | contradiction].
Qed.

Lemma calculateCorrelation_guard (x y : list R) :
  List.length x <> List.length y \/ (x = [] /\ y = []) ->
  calculateCorrelation x y = 0.
Proof.
  intros H. unfold calculateCorrelation.
  destruct H as [H | [-> ->]]; [|reflexivity].
  apply Nat.eqb_neq in H. now rewrite H.
Qed.

(** Entry [(i, j)] of a grid built row by row. *)
Lemma nth_error_grid {A B} (f : A -> A -> B) (cols rows : list A)
    (i j : nat) (a b : A) :
  nth_error rows i = Some a -> nth_error cols j = Some b ->
  nth_error (flat_map (fun r => map (f r) cols) rows)
            (i * List.length cols + j)
  = Some (f a b).
Proof.
  intros Ha Hb. revert i Ha.
  induction rows as [|r rows IH]; intros i Ha.
  - destruct i; discriminate.
  - destruct i as [|i]; simpl in *.
    + injection Ha as ->.
      rewrite nth_error_app1.
      * now apply map_nth_error.
      * rewrite length_map. apply nth_error_Some. congruence.
    + rewrite nth_error_app2; rewrite length_map; [|lia].
      replace (List.length cols + i * List.length cols + j
               - List.length cols)%nat
        with (i * List.length cols + j)%nat by lia.
      now apply IH.
Qed.

Variable N : string -> option Q.

(** The matrix of the heatmap, entry by entry. *)
Lemma heatmap_entry (data : list JS.object) (columns : list Column.t)
    (matrix : list Cell.t) (labels : list string) (size : nat)
    (i j : nat) (ci cj : string) :
  heatmapBranch N HEATMAP data columns = Some (Heatmap matrix labels size) ->
  nth_error labels i = Some ci -> nth_error labels j = Some cj ->
  size = List.length labels
  /\ nth_error matrix (i * size + j)
     = Some (Cell.mk ci cj (correlationOf N data ci cj)).
Proof.
  unfold heatmapBranch.
  destruct (2 <=? _)%nat; [|discriminate].
  intros H Hi Hj. injection H as <- <- <-.
  split; [reflexivity|].
  unfold correlationMatrix.
  now apply (nth_error_grid (fun ci cj => Cell.mk ci cj _)).
Qed.

Lemma heatmap_labels (data : list JS.object) (columns : list Column.t)
    (matrix : list Cell.t) (labels : list string) (size : nat) :
  heatmapBranch N HEATMAP data columns = Some (Heatmap matrix labels size) ->
  labels = JS.slice 0 6 (columnsOfType numeric columns)
  /\ size = List.length labels
  /\ (2 <= List.length (columnsOfType numeric columns))%nat.
Proof.
  unfold heatmapBranch.
  destruct (Nat.leb_spec 2 (List.length (columnsOfType numeric columns)))
    as [Hge|Hlt]; [|discriminate].
  intros Hm. injection Hm as <- <- <-. repeat split. exact Hge.
Qed.


(** C8. [calculateCorrelation] answers 0 when the two lists differ in length
    and when both are empty.  In the heatmap, the entry of two columns that
    yield different numbers of numeric cells is therefore 0, whatever the
    values. *)
Theorem calculateCorrelation_length_guard :
  (forall x y : list R,
     List.length x <> List.length y \/ (x = [] /\ y = []) ->
     calculateCorrelation x y = 0)
  /\
  (forall (data : list JS.object) (columns : list Column.t)
          (matrix : list Cell.t) (labels : list string) (size : nat)
          (i j : nat) (ci cj : string),
     heatmapBranch N HEATMAP data columns
       = Some (Heatmap matrix labels size) ->
     nth_error labels i = Some ci -> nth_error labels j = Some cj ->
     List.length (getNums N data ci) <> List.length (getNums N data cj) ->
     nth_error matrix (i * size + j) = Some (Cell.mk ci cj 0)).
Proof.
  split; [exact calculateCorrelation_guard|].
  intros data columns matrix labels size i j ci cj Hmap Hci Hcj Hlen.
  destruct (heatmap_entry _ _ _ _ _ i j ci cj Hmap Hci Hcj) as [_ Hentry].
  rewrite Hentry. unfold correlationOf.
  rewrite calculateCorrelation_guard; [reflexivity|].
  left. now rewrite !length_map.
Qed.

End Correlation.

(** ** The theorems on the sample datasets *)

Section OnExamples.

Import ChartRenderer.

Local Open Scope R_scope.

Lemma Q2R_whole (z : Z) : Q2R (inject_Z z) = IZR z.
Proof. unfold Q2R, inject_Z. simpl. field. Qed.

Lemma spread_pair (a b : R) :
  Reference.spread [a; b] = (a - b) * (a - b).
Proof.
  unfold Reference.spread, sumSquares, sum. simpl. lra.
Qed.

(** Column [a] of [Examples.constantColumnData] holds 1 and 1: its
    correlation with itself is 0. *)
Lemma constant_column_self_correlation :
  correlationOf MockBackend.decimalNumber Examples.constantColumnData
    "a" "a" = 0.
Proof.
  unfold correlationOf.
  change (getNums MockBackend.decimalNumber Examples.constantColumnData "a")
    with [inject_Z 1; inject_Z 1].
  apply calculateCorrelation_self.
  cbn [map]. rewrite spread_pair. lra.
Qed.


End OnExamples.


Lemma calculateCorrelation_length_guard_witness :
  exists matrix labels size,
    ChartRenderer.heatmapBranch MockBackend.decimalNumber HEATMAP
      Examples.missingCellData Examples.twoColumns
      = Some (ChartRenderer.Heatmap matrix labels size)
    /\ nth_error matrix 1 = Some (Cell.mk "a" "b" 0%R).
Proof.
  assert (ChartRenderer.heatmapBranch MockBackend.decimalNumber HEATMAP
            Examples.missingCellData Examples.twoColumns
          = Some (ChartRenderer.Heatmap
                    (ChartRenderer.correlationMatrix
                       MockBackend.decimalNumber Examples.missingCellData
                       ["a"%string; "b"%string])
                    ["a"%string; "b"%string] 2)) as Hmap by reflexivity.
  assert (List.length (ChartRenderer.getNums MockBackend.decimalNumber
                         Examples.missingCellData "a")
          <> List.length (ChartRenderer.getNums MockBackend.decimalNumber
                            Examples.missingCellData "b")) as Hlen
    by (vm_compute; discriminate).
  eexists. eexists. eexists.
  split; [exact Hmap|].
  exact (proj2 (calculateCorrelation_length_guard MockBackend.decimalNumber)
           _ _ _ _ _ 0%nat 1%nat "a"%string "b"%string
           Hmap eq_refl eq_refl Hlen).
Defined.


(* ================================================================== *)
(** * Further properties of the sampler *)

Section SamplerSummary.

Import MockBackend.

Variable N : string -> option Q.

Lemma split_nonempty (sep : ascii) (s : string) : JS.split sep s <> [].
Proof.
  destruct s as [|c t]; simpl; [discriminate|].
  destruct (Ascii.eqb c sep); [discriminate|].
  destruct (JS.split sep t); discriminate.
Qed.

Lemma split_pieces_free (sep : ascii) (s : string) :
  Forall (fun p => Text.occurs sep p = false) (JS.split sep s).
Proof.
  induction s as [|c t IH]; simpl.
  - repeat constructor.
  - destruct (Ascii.eqb c sep) eqn:E.
    + constructor; [reflexivity | exact IH].
    + destruct (JS.split sep t) as [|p rest].
      * repeat constructor. simpl. now rewrite E.
      * inversion IH as [|? ? Hp Hrest]; subst.
        constructor; [|exact Hrest]. simpl. now rewrite E, Hp.
Qed.

Lemma split_join (sep : ascii) (s : string) :
  Text.join sep (JS.split sep s) = s.
Proof.
  induction s as [|c t IH]; simpl; [reflexivity|].
  destruct (Ascii.eqb_spec c sep) as [->|Hne].
  - pose proof (split_nonempty sep t) as Hn.
    destruct (JS.split sep t) as [|p rest]; [congruence|].
    change (Text.join sep (EmptyString :: p :: rest))
      with (String sep (Text.join sep (p :: rest))).
    now rewrite IH.
  - destruct (JS.split sep t) as [|p rest] eqn:E.
    + now pose proof (split_nonempty sep t).
    + destruct rest as [|p' rest'].
      * simpl in *. now rewrite IH.
      * change (Text.join sep (String c p :: p' :: rest'))
          with (String c (Text.join sep (p :: p' :: rest'))).
        now rewrite IH.
Qed.

Lemma trimStart_occurs (c : ascii) (s : string) :
  Text.occurs c (JS.trimStart s) = true -> Text.occurs c s = true.
Proof.
  induction s as [|d t IH]; simpl; [discriminate|].
  destruct (JS.isWhiteSpace d); simpl.
  - intros H. rewrite (IH H). apply orb_true_r.
  - tauto.
Qed.

Lemma trimEnd_occurs (c : ascii) (s : string) :
  Text.occurs c (JS.trimEnd s) = true -> Text.occurs c s = true.
Proof.
  induction s as [|d t IH]; simpl; [discriminate|].
  destruct (JS.trimEnd t) as [|e t'] eqn:E.
  - destruct (JS.isWhiteSpace d); simpl; [discriminate|].
    rewrite orb_false_r. intros ->. reflexivity.
  - simpl in *. intros H.
    apply orb_true_iff in H. destruct H as [H|H].
    + now rewrite H.
    + rewrite (IH H). apply orb_true_r.
Qed.

Lemma trim_occurs (c : ascii) (s : string) :
  Text.occurs c s = false -> Text.occurs c (JS.trim s) = false.
Proof.
  intros H. unfold JS.trim.
  destruct (Text.occurs c (JS.trimEnd (JS.trimStart s))) eqn:E;
    [|reflexivity].
  apply trimEnd_occurs, trimStart_occurs in E. congruence.
Qed.

Lemma trimStart_first (s : string) :
  Text.notWhiteSpace (Text.first (JS.trimStart s)) = true.
Proof.
  induction s as [|d t IH]; simpl; [reflexivity|].
  destruct (JS.isWhiteSpace d) eqn:E; [exact IH|].
  simpl. now rewrite E.
Qed.

Lemma trimEnd_last (s : string) :
  Text.notWhiteSpace (Text.last (JS.trimEnd s)) = true.
Proof.
  induction s as [|d t IH]; simpl; [reflexivity|].
  destruct (JS.trimEnd t) as [|e t'] eqn:E.
  - destruct (JS.isWhiteSpace d) eqn:W; simpl; [reflexivity|].
    now rewrite W.
  - exact IH.
Qed.

Lemma trimEnd_first (s : string) :
  Text.notWhiteSpace (Text.first s) = true ->
  Text.notWhiteSpace (Text.first (JS.trimEnd s)) = true.
Proof.
  destruct s as [|d t]; simpl; [reflexivity|].
  intros Hd. destruct (JS.trimEnd t); [|exact Hd].
  destruct (JS.isWhiteSpace d) eqn:W; [discriminate|].
  simpl. now rewrite W.
Qed.

Lemma trim_trimmed (s : string) : Text.trimmed (JS.trim s) = true.
Proof.
  unfold Text.trimmed, JS.trim.
  rewrite trimEnd_first by apply trimStart_first.
  now rewrite trimEnd_last.
Qed.

Lemma mapIndexed_names (lines : list string) (rows : list (list string))
    (headers : list string) (i : nat) :
  map Column.name (mapIndexed i (inferColumn N lines rows) headers)
  = headers.
Proof.
  revert i. induction headers as [|h headers IH]; intros i; simpl;
    [reflexivity|].
  now rewrite IH.
Qed.

(** What a resolved [analyzeCSV] returns, field by field. *)
Lemma analyzeCSV_resolved (file : File) (stats : DatasetStats.t) :
  analyzeCSV N file = Resolved stats ->
  let lines := sampledLines file in
  let headers := Text.headerTokens file in
  (2 <= List.length lines)%nat
  /\ DatasetStats.rowCount stats = estimatedTotalRows file lines
  /\ DatasetStats.colCount stats = List.length headers
  /\ DatasetStats.columns stats
     = mapIndexed 0
         (inferColumn N lines
            (map (JS.split ","%char) (JS.slice 1 6 lines)))
         headers
  /\ DatasetStats.data stats
     = map (fun line => fillRow N headers 0 (JS.split ","%char line) [])
           (Text.dataLines file).
Proof.
  unfold analyzeCSV.
  destruct (readChunk file) as [|c t]; [discriminate|].
  destruct (Nat.ltb_spec (List.length (sampledLines file)) 2) as [Hlt|Hge];
    [discriminate|].
  intros H. injection H as <-. simpl.
  repeat split. exact Hge.
Qed.


Lemma slice_length {A} (i j : nat) (a : list A) :
  List.length (JS.slice i j a) = Nat.min (j - i) (List.length a - i).
Proof. unfold JS.slice. now rewrite length_firstn, length_skipn. Qed.

(** X2. The summary holds one row per sampled line after the header, up to
    100 of them and at least one, and the estimated row count is never
    below the number of rows it holds. *)
Theorem analyzeCSV_rows_bounded (file : File) (stats : DatasetStats.t)
    (Hres : analyzeCSV N file = Resolved stats) :
  List.length (DatasetStats.data stats)
  = Nat.min 100 (List.length (sampledLines file) - 1)
  /\ (1 <= List.length (DatasetStats.data stats) <= 100)%nat
  /\ (Z.of_nat (List.length (DatasetStats.data stats))
      <= DatasetStats.rowCount stats)%Z.
Proof.
  destruct (analyzeCSV_resolved file stats Hres)
    as (Hge & Hrow & _ & _ & Hdata).
  assert (List.length (DatasetStats.data stats)
          = Nat.min 100 (List.length (sampledLines file) - 1)) as Hlen.
  { rewrite Hdata, length_map. unfold Text.dataLines.
    now rewrite slice_length. }
  split; [exact Hlen|]. split; [lia|].
  rewrite Hrow. unfold estimatedTotalRows.
  destruct (Z.gtb_spec (size file) CHUNK_SIZE) as [Hbig|Hfit]; [|lia].
  pose proof (estimate_above_sample (size file)
                (Z.of_nat (List.length (sampledLines file)))) as Habove.
  lia.
Qed.

End SamplerSummary.


Lemma analyzeCSV_rows_bounded_witness :
  exists stats,
    MockBackend.analyzeCSV MockBackend.decimalNumber MockBackend.scenarioFile
      = Resolved stats
    /\ List.length (DatasetStats.data stats) = 3%nat.
Proof.
  eexists. split; [reflexivity|].
  apply (analyzeCSV_rows_bounded MockBackend.decimalNumber
           MockBackend.scenarioFile).
  reflexivity.
Defined.

(** ** Rows and column profiles of the summary *)

Section SamplerRows.

Import MockBackend.

Variable N : string -> option Q.

Lemma get_set_same (o : JS.object) (k : string) (v : JS.value) :
  JS.get (JS.set o k v) k = v.
Proof.
  induction o as [|[k' v'] o IH]; simpl.
  - now rewrite String.eqb_refl.
  - destruct (String.eqb k' k) eqn:E; simpl; now rewrite E.
Qed.

Lemma get_set_other (o : JS.object) (k k' : string) (v : JS.value) :
  k' <> k -> JS.get (JS.set o k v) k' = JS.get o k'.
Proof.
  intros Hne. induction o as [|[k0 v0] o IH]; simpl.
  - apply String.eqb_neq in Hne. rewrite String.eqb_sym in Hne.
    now rewrite Hne.
  - destruct (String.eqb_spec k0 k) as [->|Hk]; simpl.
    + apply String.eqb_neq in Hne. rewrite String.eqb_sym in Hne.
      now rewrite Hne.
    + now rewrite IH.
Qed.

Lemma keys_set (o : JS.object) (k : string) (v : JS.value) :
  (In k (map fst o) -> map fst (JS.set o k v) = map fst o)
  /\ (~ In k (map fst o) -> map fst (JS.set o k v) = map fst o ++ [k]).
Proof.
  induction o as [|[k0 v0] o [IHin IHout]]; simpl.
  - split; [intros [] | reflexivity].
  - destruct (String.eqb_spec k0 k) as [->|Hk]; simpl.
    + split; [reflexivity | intros C; exfalso; apply C; now left].
    + split.
      * intros [C|Hin]; [contradiction|]. now rewrite IHin.
      * intros Hout. rewrite IHout; [reflexivity|]. tauto.
Qed.

Lemma fillRow_get_other (hs : list string) (i : nat) (vs : list string)
    (o : JS.object) (k : string) :
  ~ In k hs -> JS.get (fillRow N hs i vs o) k = JS.get o k.
Proof.
  revert i o. induction hs as [|h hs IH]; intros i o Hk; simpl;
    [reflexivity|].
  rewrite IH by (intros C; apply Hk; now right).
  apply get_set_other. intros ->. apply Hk. now left.
Qed.

Lemma fillRow_get (hs : list string) (i j : nat) (vs : list string)
    (o : JS.object) (h : string) :
  NoDup hs -> nth_error hs j = Some h ->
  JS.get (fillRow N hs i vs o) h = toCell N (cellAt vs (i + j)).
Proof.
  revert i j o. induction hs as [|h0 hs IH]; intros i j o Hnd Hj.
  - destruct j; discriminate.
  - inversion Hnd as [|? ? Hnotin Hnd']; subst.
    destruct j as [|j]; simpl in *.
    + injection Hj as ->.
      rewrite fillRow_get_other by exact Hnotin.
      rewrite get_set_same. now rewrite Nat.add_0_r.
    + rewrite (IH (S i) j _ Hnd' Hj).
      now replace (S i + j)%nat with (i + S j)%nat by lia.
Qed.

Lemma fillRow_keys (hs : list string) (i : nat) (vs : list string)
    (o : JS.object) :
  NoDup hs -> (forall h, In h hs -> ~ In h (map fst o)) ->
  map fst (fillRow N hs i vs o) = map fst o ++ hs.
Proof.
  revert i o. induction hs as [|h0 hs IH]; intros i o Hnd Hfresh; simpl.
  - now rewrite app_nil_r.
  - inversion Hnd as [|? ? Hnotin Hnd']; subst.
    assert (map fst (JS.set o h0 (toCell N (cellAt vs i)))
            = map fst o ++ [h0]) as Hset
      by (apply keys_set, Hfresh; now left).
    rewrite IH; [|exact Hnd'|].
    + rewrite Hset, <- app_assoc. reflexivity.
    + intros h Hh. rewrite Hset. intros C.
      apply in_app_or in C. destruct C as [C|[->|[]]].
      * apply (Hfresh h); [now right | exact C].
      * contradiction.
Qed.


Lemma nth_error_slice {A} (i j r : nat) (a : list A) :
  nth_error (JS.slice i j a) r
  = if (r <? j - i)%nat then nth_error a (i + r) else None.
Proof.
  unfold JS.slice. rewrite nth_error_firstn.
  destruct (r <? j - i)%nat; [apply nth_error_skipn | reflexivity].
Qed.

Lemma nth_error_mapIndexed {A B} (f : A -> nat -> B) (a : list A)
    (i j : nat) :
  nth_error (mapIndexed i f a) j
  = option_map (fun v => f v (i + j)%nat) (nth_error a j).
Proof.
  revert i j. induction a as [|v a IH]; intros i [|j]; simpl;
    try reflexivity.
  - now rewrite Nat.add_0_r.
  - rewrite IH. now replace (S i + j)%nat with (i + S j)%nat by lia.
Qed.

Lemma toCell_number (val : option string) :
  looksNumeric N val = true <-> exists q, toCell N val = JS.VNum q.
Proof.
  unfold toCell. destruct (looksNumeric N val) eqn:E.
  - split; [intros _ | reflexivity].
    unfold looksNumeric in E. apply andb_true_iff in E. destruct E as [E _].
    destruct (Number N val) as [q|]; [now exists q | discriminate].
  - split; [discriminate|]. intros [q Hq].
    destruct val; discriminate.
Qed.


Lemma distinct_length_le {A} (eqb : A -> A -> bool) (a : list A) :
  (List.length (JS.distinct eqb a) <= List.length a)%nat.
Proof.
  induction a as [|v a IH]; simpl; [lia|].
  destruct (existsb _ _); simpl; lia.
Qed.

Lemma distinct_nonempty {A} (eqb : A -> A -> bool) (a : list A) :
  a <> [] -> (1 <= List.length (JS.distinct eqb a))%nat.
Proof.
  destruct a as [|v a]; [congruence|]. intros _. simpl.
  destruct (existsb (eqb v) (JS.distinct eqb a)) eqn:E; [|simpl; lia].
  destruct (JS.distinct eqb a); [discriminate | simpl; lia].
Qed.

(** X5. Every column profile of the summary counts between 1 and the number
    of rows of the summary as its unique values, and carries as its sample
    the cells of the first rows, three of them or as many as there are
    rows. *)
Theorem column_profile_bounds (file : File) (stats : DatasetStats.t)
    (Hres : analyzeCSV N file = Resolved stats)
    (col : Column.t) (Hcol : In col (DatasetStats.columns stats)) :
  (1 <= Column.uniqueCount col
     <= List.length (DatasetStats.data stats))%nat
  /\ List.length (Column.sample col)
     = Nat.min 3 (List.length (DatasetStats.data stats)).
Proof.
  destruct (analyzeCSV_resolved N file stats Hres)
    as (Hge & _ & _ & Hcols & Hdata).
  apply In_nth_error in Hcol. destruct Hcol as [i Hi].
  rewrite Hcols, nth_error_mapIndexed in Hi.
  destruct (nth_error (Text.headerTokens file) i) as [h|]; [|discriminate].
  simpl in Hi. injection Hi as <-.
  unfold inferColumn. cbn [Column.uniqueCount Column.sample].
  assert (List.length (DatasetStats.data stats)
          = Nat.min 100 (List.length (sampledLines file) - 1)) as Hlen.
  { rewrite Hdata, length_map. unfold Text.dataLines.
    now rewrite slice_length. }
  split; [split|].
  - apply distinct_nonempty. intros C.
    apply (f_equal (@List.length _)) in C.
    rewrite length_map, slice_length in C. cbn [List.length] in C. lia.
  - eapply Nat.le_trans; [apply distinct_length_le|].
    rewrite length_map, slice_length. lia.
  - rewrite slice_length, !length_map, slice_length. lia.
Qed.

End SamplerRows.



Lemma column_profile_bounds_witness :
  exists stats col,
    MockBackend.analyzeCSV MockBackend.decimalNumber MockBackend.scenarioFile
      = Resolved stats
    /\ nth_error (DatasetStats.columns stats) 0 = Some col
    /\ List.length (Column.sample col) = 3%nat.
Proof.
  eexists. eexists. split; [reflexivity|]. split; [reflexivity|].
  apply (column_profile_bounds MockBackend.decimalNumber
           MockBackend.scenarioFile _ eq_refl).
  left. reflexivity.
Defined.

(* ================================================================== *)
(** * Further properties of the chart helpers *)

Section ScaleRange.

Import ChartRenderer.

Lemma scale_nondegenerate (v min max o1 o2 : Q) :
  ~ max == min ->
  scale v min max o1 o2
  = o1 + ((v - min) / (max - min)) * (o2 - o1).
Proof.
  intros Hne. unfold scale.
  destruct (Qeq_bool max min) eqn:E; [|reflexivity].
  apply Qeq_bool_iff in E. contradiction.
Qed.

Lemma fraction_bounds (v min max : Q) :
  min < max -> min <= v <= max ->
  0 <= (v - min) / (max - min) <= 1.
Proof.
  intros Hlt [Hlo Hhi]. split.
  - apply Qle_shift_div_l; lra.
  - apply Qle_shift_div_r; lra.
Qed.

Lemma scale_between (v min max o1 o2 : Q) :
  min <= v <= max ->
  (o1 <= o2 -> o1 <= scale v min max o1 o2 <= o2)
  /\ (o2 <= o1 -> o2 <= scale v min max o1 o2 <= o1).
Proof.
  intros Hv. unfold scale. destruct (Qeq_bool max min) eqn:E.
  - split; intros Ho; split;
      (apply Qle_shift_div_l || apply Qle_shift_div_r); lra.
  - apply Qeq_bool_neq in E.
    assert (min < max) as Hlt.
    { destruct Hv as [Hlo Hhi].
      apply Qnot_le_lt. intros C. apply E. lra. }
    destruct (fraction_bounds v min max Hlt Hv) as [H0 H1].
    set (t := (v - min) / (max - min)) in *.
    split; intros Ho; split; nra.
Qed.

Lemma scale_order (min max o1 o2 v w : Q) :
  min <= max -> v <= w ->
  (o1 <= o2 -> scale v min max o1 o2 <= scale w min max o1 o2)
  /\ (o2 <= o1 -> scale w min max o1 o2 <= scale v min max o1 o2).
Proof.
  intros Hle Hvw. unfold scale.
  destruct (Qeq_bool max min) eqn:E; [split; intros _; apply Qle_refl|].
  apply Qeq_bool_neq in E.
  assert (min < max) as Hlt by (apply Qnot_le_lt; intros C; apply E; lra).
  assert ((v - min) / (max - min) <= (w - min) / (max - min)) as Hmono.
  { unfold Qdiv. apply Qmult_le_compat_r; [lra|].
    apply Qlt_le_weak, Qinv_lt_0_compat. lra. }
  set (s := (v - min) / (max - min)) in *.
  set (t := (w - min) / (max - min)) in *.
  split; intros Ho; nra.
Qed.

(** In the degenerate case the value need not lie inside the range. *)
Lemma scale_between_or_flat (v min max o1 o2 : Q) :
  max == min \/ min <= v <= max ->
  (o1 <= o2 -> o1 <= scale v min max o1 o2 <= o2)
  /\ (o2 <= o1 -> o2 <= scale v min max o1 o2 <= o1).
Proof.
  intros [Hflat|Hv]; [|now apply scale_between].
  unfold scale. apply Qeq_bool_iff in Hflat. rewrite Hflat.
  split; intros Ho; split;
    (apply Qle_shift_div_l || apply Qle_shift_div_r); lra.
Qed.

(** X6. For a value inside the input range, [scale] answers a number
    between the two output bounds, whichever of them is the larger (the
    vertical axes pass them in decreasing order), the degenerate input
    range included. *)
Theorem scale_within_output (v min max o1 o2 : Q)
    (Hv : min <= v <= max) :
  (o1 <= o2 -> o1 <= scale v min max o1 o2 <= o2)
  /\ (o2 <= o1 -> o2 <= scale v min max o1 o2 <= o1).
Proof. now apply scale_between. Qed.

(** X7. On a proper input range [scale] sends the lower end of the range to
    [outMin] and the upper end to [outMax], and it keeps the order of the
    values when the output bounds increase and reverses it when they
    decrease. *)
Theorem scale_ends_and_order (min max o1 o2 : Q) (Hlt : min < max) :
  scale min min max o1 o2 == o1
  /\ scale max min max o1 o2 == o2
  /\ (forall v w, v <= w -> o1 <= o2 ->
        scale v min max o1 o2 <= scale w min max o1 o2)
  /\ (forall v w, v <= w -> o2 <= o1 ->
        scale w min max o1 o2 <= scale v min max o1 o2).
Proof.
  assert (~ max == min) as Hne by lra.
  split; [rewrite scale_nondegenerate by exact Hne; field; lra|].
  split; [rewrite scale_nondegenerate by exact Hne; field; lra|].
  split; intros v w Hvw Ho;
    apply (scale_order min max o1 o2 v w); try assumption; lra.
Qed.

End ScaleRange.

Lemma scale_within_output_witness :
  290 >= ChartRenderer.scale 3 0 10 290 60
  /\ ChartRenderer.scale 3 0 10 290 60 >= 60.
Proof.
  destruct (proj2 (scale_within_output 3 0 10 290 60 ltac:(lra))
                  ltac:(lra)) as [Hlo Hhi].
  split; [exact Hhi | exact Hlo].
Defined.

Lemma scale_ends_and_order_witness :
  ChartRenderer.scale 10 0 10 60 540 == 540.
Proof.
  apply (scale_ends_and_order 0 10 60 540). reflexivity.
Defined.

(** ** The five-number summary and the density curve *)

Section QuantilesExtremes.

Import ChartRenderer.

Lemma insert_In (v x : Q) (a : list Q) :
  In x (JS.insert v a) <-> x = v \/ In x a.
Proof.
  induction a as [|w a IH]; simpl.
  - intuition.
  - destruct (Qle_bool _ _); simpl; [intuition|].
    rewrite IH. intuition.
Qed.

Lemma sort_In (x : Q) (a : list Q) : In x (JS.sort a) <-> In x a.
Proof.
  induction a as [|v a IH]; simpl; [reflexivity|].
  rewrite insert_In, IH. intuition.
Qed.

Lemma index_Some_In {A} (a : list A) (i : Z) (v : A) :
  JS.index a i = Some v -> In v a.
Proof.
  unfold JS.index. destruct (i <? 0)%Z; [discriminate|].
  apply nth_error_In.
Qed.

(** The summary of a non-empty list, with everything the later proofs
    use: the five values exist, are in order, belong to the list, and the
    first and the last bound every element. *)
Lemma getQuantiles_nonempty (data : list Q) :
  data <> [] ->
  exists lo a b c hi,
    getQuantiles data
      = Quantiles.mk (Some lo) (Some a) (Some b) (Some c) (Some hi)
    /\ (lo <= a /\ a <= b /\ b <= c /\ c <= hi)
    /\ (In lo data /\ In a data /\ In b data /\ In c data /\ In hi data)
    /\ forall v, In v data -> lo <= v <= hi.
Proof.
  intros Hne. unfold getQuantiles.
  destruct data as [|d0 data']; [congruence|].
  set (sorted := JS.sort (d0 :: data')).
  set (n := Z.of_nat (List.length sorted)).
  assert (0 < n)%Z as Hn.
  { unfold n, sorted. rewrite sort_length. simpl. lia. }
  pose proof (sort_sorted (d0 :: data')) as Hs. fold sorted in Hs.
  pose proof (floor_index_bounds n 0.25 Hn ltac:(lra) ltac:(lra)) as B1.
  pose proof (floor_index_bounds n 0.5 Hn ltac:(lra) ltac:(lra)) as B2.
  pose proof (floor_index_bounds n 0.75 Hn ltac:(lra) ltac:(lra)) as B3.
  pose proof (floor_index_mono n 0.25 0.5 Hn ltac:(lra)) as M12.
  pose proof (floor_index_mono n 0.5 0.75 Hn ltac:(lra)) as M23.
  destruct (index_in_range sorted 0) as (lo & E0 & N0); [fold n; lia|].
  destruct (index_in_range sorted _ B1) as (a & E1 & N1).
  destruct (index_in_range sorted _ B2) as (b & E2 & N2).
  destruct (index_in_range sorted _ B3) as (c & E3 & N3).
  destruct (index_in_range sorted (n - 1)) as (hi & E4 & N4); [fold n; lia|].
  exists lo, a, b, c, hi.
  rewrite E0, E1, E2, E3, E4.
  split; [reflexivity|].
  split; [|split].
  - repeat split;
      (eapply (sorted_nth_error_le sorted Hs); [|eassumption|eassumption]);
      lia.
  - repeat split; apply (sort_In _ (d0 :: data'));
      eapply index_Some_In; eassumption.
  - intros v Hv. apply (sort_In _ (d0 :: data')) in Hv. fold sorted in Hv.
    apply In_nth_error in Hv. destruct Hv as [j Hj].
    assert (j < List.length sorted)%nat as Hlt
      by (apply nth_error_Some; congruence).
    split.
    + eapply (sorted_nth_error_le sorted Hs); [|exact N0|exact Hj]. lia.
    + eapply (sorted_nth_error_le sorted Hs); [|exact Hj|exact N4].
      unfold n. lia.
Qed.

(** X8. For a non-empty list, each of the five values of the summary is an
    element of the list, and its [min] and [max] are the least and the
    greatest element: no value of the list lies outside the whiskers. *)
Theorem getQuantiles_extremes (data : list Q) (Hne : data <> []) :
  exists lo a b c hi,
    getQuantiles data
      = Quantiles.mk (Some lo) (Some a) (Some b) (Some c) (Some hi)
    /\ In lo data /\ In a data /\ In b data /\ In c data /\ In hi data
    /\ forall v, In v data -> lo <= v <= hi.
Proof.
  destruct (getQuantiles_nonempty data Hne)
    as (lo & a & b & c & hi & E & _ & (H0 & H1 & H2 & H3 & H4) & Hall).
  exists lo, a, b, c, hi. repeat split; try assumption; now apply Hall.
Qed.

End QuantilesExtremes.

Lemma getQuantiles_extremes_witness :
  exists lo hi,
    Quantiles.min (ChartRenderer.getQuantiles [4; 1; 3]) = Some lo
    /\ Quantiles.max (ChartRenderer.getQuantiles [4; 1; 3]) = Some hi
    /\ lo <= 3 <= hi.
Proof.
  destruct (getQuantiles_extremes [4; 1; 3] ltac:(discriminate))
    as (lo & a & b & c & hi & E & _ & _ & _ & _ & _ & Hall).
  exists lo, hi. rewrite E. split; [reflexivity|]. split; [reflexivity|].
  apply Hall. simpl. tauto.
Defined.

Section DensityShape.

Import ChartRenderer.

Lemma nth_error_mapi_from {A B} (f : A -> Z -> B) (a : list A) (s : Z)
    (i : nat) :
  nth_error (JS.mapi_from s f a) i
  = option_map (fun v => f v (s + Z.of_nat i)%Z) (nth_error a i).
Proof.
  revert s i. induction a as [|v a IH]; intros s [|i];
    cbn [JS.mapi_from nth_error option_map]; try reflexivity.
  - now rewrite Z.add_0_r.
  - rewrite IH.
    now replace (s + Z.of_nat (S i))%Z with (s + 1 + Z.of_nat i)%Z by lia.
Qed.

Lemma mapi_from_length {A B} (f : A -> Z -> B) (a : list A) (s : Z) :
  List.length (JS.mapi_from s f a) = List.length a.
Proof.
  revert s. induction a as [|v a IH]; intros s; simpl; [reflexivity|].
  now rewrite IH.
Qed.

Lemma incrementAt_nonneg (bins : list Z) (n : nat) :
  Forall (fun b => (0 <= b)%Z) bins ->
  Forall (fun b => (0 <= b)%Z) (incrementAt bins n).
Proof.
  intros H. revert n. induction H as [|b bins Hb Hbins IH]; intros [|n];
    simpl; constructor; try assumption; try lia. apply IH.
Qed.

Lemma densityBins_nonneg (data : list Q) (binCount : nat) :
  Forall (fun b => (0 <= b)%Z) (densityBins data binCount).
Proof.
  unfold densityBins.
  set (f := fun bins v => increment bins _).
  assert (forall vals bins,
            Forall (fun b => (0 <= b)%Z) bins ->
            Forall (fun b => (0 <= b)%Z) (fold_left f vals bins)) as Hfold.
  { induction vals as [|v vals IH]; intros bins Hb; simpl; [exact Hb|].
    apply IH. unfold f, increment.
    destruct (_ <? 0)%Z; [exact Hb | now apply incrementAt_nonneg]. }
  apply Hfold. apply Forall_forall. intros b Hb.
  apply repeat_spec in Hb. lia.
Qed.

Lemma elementOr_bounds (bins : list Z) (i val : Z) :
  Forall (fun b => (0 <= b)%Z) bins ->
  ((0 <= val)%Z -> (0 <= elementOr (JS.index bins i) val)%Z)
  /\ ((1 <= val)%Z -> (1 <= elementOr (JS.index bins i) val)%Z).
Proof.
  intros Hall. unfold elementOr.
  destruct (JS.index bins i) as [n|] eqn:E; [|tauto].
  apply index_Some_In in E. rewrite Forall_forall in Hall.
  specialize (Hall n E).
  destruct (Z.eqb_spec n 0); split; intros; lia.
Qed.

Lemma total_positive_bin (bins : list Z) :
  Forall (fun b => (0 <= b)%Z) bins ->
  (0 < Reference.total bins)%Z ->
  exists i b, nth_error bins i = Some b /\ (1 <= b)%Z.
Proof.
  induction 1 as [|b bins Hb Hbins IH]; simpl; intros Htot; [lia|].
  destruct (Z.ltb_spec 0 b) as [Hpos|Hzero].
  - exists 0%nat, b. split; [reflexivity | lia].
  - destruct IH as (i & b' & Hi & Hb'); [lia|].
    exists (S i), b'. split; assumption.
Qed.

Lemma inject_Z_nonneg (z : Z) : (0 <= z)%Z -> 0 <= inject_Z z.
Proof. intros H. change 0 with (inject_Z 0). now rewrite <- Zle_Qle. Qed.

Lemma inject_Z_ge_one (z : Z) : (1 <= z)%Z -> 1 <= inject_Z z.
Proof. intros H. change 1 with (inject_Z 1). now rewrite <- Zle_Qle. Qed.

(** The points of the density curve of a non-empty list. *)
Lemma getDensity_points (data : list Q) (binCount : nat)
    (Hne : data <> []) (Hbins : (0 < binCount)%nat) :
  let min := JS.Math_min data in
  let range := densityRange data in
  List.length (getDensity data binCount) = binCount
  /\ (forall i p, nth_error (getDensity data binCount) i = Some p ->
        Point.x p
          = min + (inject_Z (Z.of_nat i) / inject_Z (Z.of_nat binCount))
                  * range
        /\ min <= Point.x p /\ Point.x p < min + range
        /\ 0 <= Point.y p
        /\ (forall b, nth_error (densityBins data binCount) i = Some b ->
              (1 <= b)%Z -> 1 <= Point.y p))
  /\ exists i p, nth_error (getDensity data binCount) i = Some p
                 /\ 1 <= Point.y p.
Proof.
  intros min range.
  destruct (densityBins_total data binCount Hbins) as [Hlen Htot].
  pose proof (densityBins_nonneg data binCount) as Hnn.
  pose proof (densityRange_positive data) as Hrange. fold range in Hrange.
  assert (getDensity data binCount
          = JS.mapi (fun val i =>
                       Point.mk (min + (inject_Z i
                                        / inject_Z (Z.of_nat binCount))
                                       * range) val)
                    (smooth (densityBins data binCount))) as Hdef
    by (unfold getDensity; destruct data; [congruence | reflexivity]).
  assert (forall i p, nth_error (getDensity data binCount) i = Some p ->
            exists b,
              nth_error (densityBins data binCount) i = Some b
              /\ (i < binCount)%nat
              /\ Point.x p
                 = min + (inject_Z (Z.of_nat i)
                          / inject_Z (Z.of_nat binCount)) * range
              /\ Point.y p
                 = (inject_Z (elementOr
                                (JS.index (densityBins data binCount)
                                          (Z.of_nat i - 1)) b)
                    + inject_Z b * 2
                    + inject_Z (elementOr
                                  (JS.index (densityBins data binCount)
                                            (Z.of_nat i + 1)) b)) / 4)
    as Hpoint.
  { intros i p Hp. rewrite Hdef in Hp. unfold smooth, JS.mapi in Hp.
    rewrite !nth_error_mapi_from in Hp.
    destruct (nth_error (densityBins data binCount) i) as [b|] eqn:Eb;
      cbn [option_map] in Hp; [|discriminate].
    injection Hp as <-. exists b.
    split; [reflexivity|]. split.
    - rewrite <- Hlen. apply nth_error_Some. congruence.
    - split; reflexivity. }
  split; [|split].
  - rewrite Hdef. unfold smooth, JS.mapi.
    now rewrite !mapi_from_length.
  - intros i p Hp.
    destruct (Hpoint i p Hp) as (b & Eb & Hi & Hx & Hy).
    assert ((0 <= b)%Z) as Hb.
    { rewrite Forall_forall in Hnn. apply Hnn.
      eapply nth_error_In. exact Eb. }
    destruct (elementOr_bounds (densityBins data binCount)
                (Z.of_nat i - 1) b Hnn) as [Hp0 Hp1].
    destruct (elementOr_bounds (densityBins data binCount)
                (Z.of_nat i + 1) b Hnn) as [Hq0 Hq1].
    assert (0 < inject_Z (Z.of_nat binCount)) as Hcount.
    { change 0 with (inject_Z 0). rewrite <- Zlt_Qlt. lia. }
    assert (0 <= inject_Z (Z.of_nat i) / inject_Z (Z.of_nat binCount) < 1)
      as [Hf0 Hf1].
    { split.
      - apply Qle_shift_div_l; [exact Hcount|].
        rewrite Qmult_0_l. apply inject_Z_nonneg. lia.
      - apply Qlt_shift_div_r; [exact Hcount|].
        rewrite Qmult_1_l. rewrite <- Zlt_Qlt. lia. }
    split; [exact Hx|]. rewrite Hx, Hy.
    set (f := inject_Z (Z.of_nat i) / inject_Z (Z.of_nat binCount)) in *.
    split; [nra|]. split; [nra|].
    split.
    + pose proof (inject_Z_nonneg _ (Hp0 Hb)).
      pose proof (inject_Z_nonneg _ (Hq0 Hb)).
      pose proof (inject_Z_nonneg _ Hb).
      apply Qle_shift_div_l; lra.
    + intros b' Eb' Hb'. assert (b' = b) as -> by congruence.
      pose proof (inject_Z_ge_one _ (Hp1 Hb')).
      pose proof (inject_Z_ge_one _ (Hq1 Hb')).
      pose proof (inject_Z_ge_one _ Hb').
      apply Qle_shift_div_l; lra.
  - destruct (total_positive_bin _ Hnn) as (i & b & Eb & Hb).
    { rewrite Htot. destruct data; [congruence | simpl; lia]. }
    assert (exists p, nth_error (getDensity data binCount) i = Some p)
      as [p Hp].
    { destruct (nth_error (getDensity data binCount) i) as [p|] eqn:E;
        [now exists p|].
      apply nth_error_None in E.
      rewrite Hdef in E. unfold smooth, JS.mapi in E.
      rewrite !mapi_from_length in E.
      assert (i < List.length (densityBins data binCount))%nat
        by (apply nth_error_Some; congruence).
      lia. }
    exists i, p. split; [exact Hp|].
    destruct (Hpoint i p Hp) as (b' & Eb' & _ & _ & Hy).
    assert (b' = b) as -> by congruence.
    destruct (elementOr_bounds (densityBins data binCount)
                (Z.of_nat i - 1) b Hnn) as [_ Hp1].
    destruct (elementOr_bounds (densityBins data binCount)
                (Z.of_nat i + 1) b Hnn) as [_ Hq1].
    pose proof (inject_Z_ge_one _ (Hp1 Hb)).
    pose proof (inject_Z_ge_one _ (Hq1 Hb)).
    pose proof (inject_Z_ge_one _ Hb).
    rewrite Hy. apply Qle_shift_div_l; lra.
Qed.

(** X9. For a non-empty list and at least one bin, the density curve has
    exactly [binCount] points; the i-th point sits at
    [min + (i / binCount) * range], at or after the minimum and before
    [min + range]; no height is negative, and a bin that holds a value has a
    height of at least 1, so the curve has a point of height 1 or more. *)
Theorem getDensity_shape (data : list Q) (binCount : nat)
    (Hne : data <> []) (Hbins : (0 < binCount)%nat) :
  let min := JS.Math_min data in
  let range := densityRange data in
  List.length (getDensity data binCount) = binCount
  /\ (forall i p, nth_error (getDensity data binCount) i = Some p ->
        Point.x p
          = min + (inject_Z (Z.of_nat i) / inject_Z (Z.of_nat binCount))
                  * range
        /\ min <= Point.x p /\ Point.x p < min + range
        /\ 0 <= Point.y p
        /\ (forall b, nth_error (densityBins data binCount) i = Some b ->
              (1 <= b)%Z -> 1 <= Point.y p))
  /\ exists i p, nth_error (getDensity data binCount) i = Some p
                 /\ 1 <= Point.y p.
Proof. now apply getDensity_points. Qed.

End DensityShape.

Lemma getDensity_shape_witness :
  List.length (ChartRenderer.getDensity [0; 30] 30) = 30%nat.
Proof.
  apply (getDensity_shape [0; 30] 30); [discriminate | lia].
Defined.

(** ** The correlation coefficient *)

Section CorrelationBounds.

Import ChartRenderer.

Local Open Scope R_scope.

Lemma sumProducts_dot (x y pre : list R) (acc : R) :
  List.length x = List.length y ->
  sumProducts (List.length pre) x (pre ++ y) acc = acc + Vector.dot x y.
Proof.
  revert y pre acc.
  induction x as [|a x IH]; intros [|b y] pre acc Hlen;
    try discriminate; simpl.
  - lra.
  - rewrite nth_middle.
    replace (pre ++ b :: y)%list with ((pre ++ [b]) ++ y)%list
      by (rewrite <- app_assoc; reflexivity).
    replace (S (List.length pre)) with (List.length (pre ++ [b])%list)
      by (rewrite length_app; simpl; lia).
    rewrite IH by (simpl in Hlen; lia). lra.
Qed.

Lemma dot_comm (x y : list R) : Vector.dot x y = Vector.dot y x.
Proof.
  revert y. induction x as [|a x IH]; intros [|b y]; simpl;
    try reflexivity.
  rewrite IH. lra.
Qed.

(** The coefficient in terms of the covariance and the two variance
    terms, once the guard on the lengths is passed. *)
Lemma calculateCorrelation_formula (x y : list R) :
  List.length x = List.length y -> x <> [] ->
  calculateCorrelation x y
  = if Req_dec_T (sqrt (Reference.spread x * Reference.spread y)) 0
    then 0
    else Vector.covariance x y
         / sqrt (Reference.spread x * Reference.spread y).
Proof.
  intros Hlen Hne. unfold calculateCorrelation.
  rewrite <- Hlen, Nat.eqb_refl. simpl negb. simpl orb.
  destruct (Nat.eqb_spec (List.length x) 0) as [Hzero|_].
  - apply length_zero_iff_nil in Hzero. contradiction.
  - pose proof (sumProducts_dot x y [] 0 Hlen) as Hp.
    change (sumProducts 0 x y 0 = 0 + Vector.dot x y) in Hp.
    rewrite Hp. unfold Reference.spread, Vector.covariance.
    rewrite <- Hlen.
    replace (INR (List.length x) * (0 + Vector.dot x y))
      with (INR (List.length x) * Vector.dot x y) by lra.
    reflexivity.
Qed.

Lemma covariance_comm (x y : list R) :
  List.length x = List.length y ->
  Vector.covariance x y = Vector.covariance y x.
Proof.
  intros Hlen. unfold Vector.covariance.
  rewrite Hlen, (dot_comm x y). lra.
Qed.

Lemma calculateCorrelation_comm (x y : list R) :
  calculateCorrelation x y = calculateCorrelation y x.
Proof.
  destruct (Nat.eq_dec (List.length x) (List.length y)) as [Hlen|Hlen].
  - destruct x as [|a x].
    + destruct y; [reflexivity | discriminate].
    + destruct y as [|b y]; [discriminate|].
      rewrite !calculateCorrelation_formula;
        try discriminate; try congruence.
      rewrite (covariance_comm _ _ Hlen).
      now rewrite (Rmult_comm (Reference.spread (a :: x))).
  - rewrite !calculateCorrelation_guard; [reflexivity | left | left];
      congruence.
Qed.

Variable N : string -> option Q.

(** X10. The correlation does not depend on the order of its two
    arguments, so the matrix of the heatmap is symmetric: the entries
    [(i, j)] and [(j, i)] hold the same value, with the two column names
    exchanged. *)
Theorem heatmap_symmetric (data : list JS.object) (columns : list Column.t)
    (matrix : list Cell.t) (labels : list string) (size : nat)
    (Hmap : heatmapBranch N HEATMAP data columns
            = Some (Heatmap matrix labels size))
    (i j : nat) (Hi : (i < size)%nat) (Hj : (j < size)%nat) :
  (forall x y, calculateCorrelation x y = calculateCorrelation y x)
  /\ exists a b,
       nth_error matrix (i * size + j) = Some a
       /\ nth_error matrix (j * size + i) = Some b
       /\ Cell.value a = Cell.value b
       /\ Cell.x a = Cell.y b /\ Cell.y a = Cell.x b.
Proof.
  split; [exact calculateCorrelation_comm|].
  destruct (heatmap_labels N _ _ _ _ _ Hmap) as (_ & Hsize & _).
  destruct (nth_error labels i) as [ci|] eqn:Eci;
    [|apply nth_error_None in Eci; lia].
  destruct (nth_error labels j) as [cj|] eqn:Ecj;
    [|apply nth_error_None in Ecj; lia].
  destruct (heatmap_entry N _ _ _ _ _ i j ci cj Hmap Eci Ecj) as [_ Hij].
  destruct (heatmap_entry N _ _ _ _ _ j i cj ci Hmap Ecj Eci) as [_ Hji].
  eexists. eexists. split; [exact Hij|]. split; [exact Hji|].
  cbn [Cell.value Cell.x Cell.y]. unfold correlationOf.
  split; [apply calculateCorrelation_comm | split; reflexivity].
Qed.

Lemma combination_length (t : R) (x y : list R) :
  List.length x = List.length y ->
  List.length (Vector.combination t x y) = List.length x.
Proof.
  revert y. induction x as [|a x IH]; intros [|b y] Hlen;
    try discriminate; simpl; [reflexivity|].
  rewrite IH; [reflexivity | simpl in Hlen; lia].
Qed.

Lemma sum_nil : sum [] = 0.
Proof. reflexivity. Qed.

Lemma sumSquares_nil : sumSquares [] = 0.
Proof. reflexivity. Qed.

Lemma combination_sums (t : R) (x y : list R) :
  List.length x = List.length y ->
  sum (Vector.combination t x y) = sum x + t * sum y
  /\ sumSquares (Vector.combination t x y)
     = sumSquares x + 2 * t * Vector.dot x y + t * t * sumSquares y.
Proof.
  revert y. induction x as [|a x IH]; intros [|b y] Hlen;
    try discriminate.
  - simpl. rewrite sum_nil, sumSquares_nil. split; lra.
  - destruct (IH y) as [Hs Hq]; [simpl in Hlen; lia|].
    cbn [Vector.combination Vector.dot].
    rewrite !sum_cons, !sumSquares_cons, Hs, Hq. split; lra.
Qed.

Lemma spread_combination (t : R) (x y : list R) :
  List.length x = List.length y ->
  Reference.spread (Vector.combination t x y)
  = Reference.spread x + 2 * t * Vector.covariance x y
    + t * t * Reference.spread y.
Proof.
  intros Hlen. unfold Reference.spread, Vector.covariance.
  destruct (combination_sums t x y Hlen) as [-> ->].
  rewrite combination_length by exact Hlen.
  rewrite <- Hlen. lra.
Qed.

(** The Cauchy-Schwarz inequality for the centred sums. *)
Lemma covariance_squared_le (x y : list R) :
  List.length x = List.length y ->
  Vector.covariance x y * Vector.covariance x y
  <= Reference.spread x * Reference.spread y.
Proof.
  intros Hlen.
  assert (forall t, 0 <= Reference.spread x
                         + 2 * t * Vector.covariance x y
                         + t * t * Reference.spread y) as Hquad.
  { intros t. rewrite <- spread_combination by exact Hlen.
    apply spread_nonneg. }
  set (c := Vector.covariance x y) in *.
  set (sx := Reference.spread x) in *.
  set (sy := Reference.spread y) in *.
  pose proof (spread_nonneg y) as Hsy. fold sy in Hsy.
  destruct (Req_dec_T sy 0) as [Hzero|Hpos].
  - rewrite Hzero in *.
    destruct (Req_dec_T c 0) as [->|Hc]; [lra|].
    exfalso.
    pose proof (Hquad (- (sx + 1) / (2 * c))) as H.
    replace (sx + 2 * (- (sx + 1) / (2 * c)) * c
             + - (sx + 1) / (2 * c) * (- (sx + 1) / (2 * c)) * 0)
      with (-1) in H by (field; exact Hc).
    lra.
  - assert (0 < sy) as Hsy' by lra.
    pose proof (Hquad (- c / sy)) as H.
    replace (sx + 2 * (- c / sy) * c + - c / sy * (- c / sy) * sy)
      with ((sx * sy - c * c) / sy) in H by (field; exact Hpos).
    assert (0 <= (sx * sy - c * c) / sy * sy) as H'
      by (apply Rmult_le_pos; lra).
    replace ((sx * sy - c * c) / sy * sy) with (sx * sy - c * c) in H'
      by (field; exact Hpos).
    lra.
Qed.

Lemma calculateCorrelation_bounds (x y : list R) :
  -1 <= calculateCorrelation x y <= 1.
Proof.
  destruct (Nat.eq_dec (List.length x) (List.length y)) as [Hlen|Hlen];
    [|rewrite calculateCorrelation_guard by (left; exact Hlen); lra].
  destruct x as [|a x];
    [rewrite calculateCorrelation_guard; [lra|];
     right; split; [reflexivity|]; destruct y; [reflexivity|discriminate]|].
  rewrite calculateCorrelation_formula by (exact Hlen || discriminate).
  set (c := Vector.covariance (a :: x) y).
  set (D := Reference.spread (a :: x) * Reference.spread y).
  destruct (Req_dec_T (sqrt D) 0) as [_|Hden]; [lra|].
  pose proof (covariance_squared_le (a :: x) y Hlen) as Hcs.
  fold c D in Hcs.
  assert (0 < sqrt D) as Hpos
    by (pose proof (sqrt_pos D); lra).
  assert (Rabs c <= sqrt D) as Habs.
  { rewrite <- sqrt_Rsqr_abs. apply sqrt_le_1_alt. exact Hcs. }
  assert (Rabs (c / sqrt D) <= 1) as Hr.
  { unfold Rdiv. rewrite Rabs_mult, Rabs_inv.
    rewrite (Rabs_pos_eq (sqrt D)) by lra.
    apply Rmult_le_reg_r with (sqrt D); [exact Hpos|].
    rewrite Rmult_assoc, Rinv_l by lra. lra. }
  unfold Rabs in Hr. destruct (Rcase_abs (c / sqrt D)); lra.
Qed.


(** X13. The matrix of the heatmap has [size * size] cells for between 2
    and 6 columns, the first numeric columns of the dataset; the cell at
    position [k] pairs the columns number [k / size] and [k mod size], the
    row and the column at which the component draws it. *)
Theorem heatmap_layout (data : list JS.object) (columns : list Column.t)
    (matrix : list Cell.t) (labels : list string) (size : nat)
    (Hmap : heatmapBranch N HEATMAP data columns
            = Some (Heatmap matrix labels size)) :
  labels = firstn 6 (columnsOfType numeric columns)
  /\ size = List.length labels
  /\ (2 <= size <= 6)%nat
  /\ List.length matrix = (size * size)%nat
  /\ forall k, (k < size * size)%nat ->
       exists c,
         nth_error matrix k = Some c
         /\ nth_error labels (k / size) = Some (Cell.x c)
         /\ nth_error labels (k mod size) = Some (Cell.y c).
Proof.
  destruct (heatmap_labels N _ _ _ _ _ Hmap) as (Hlabels & Hsize & Hge).
  assert (2 <= size <= 6)%nat as Hbounds.
  { rewrite Hsize, Hlabels, slice_length. lia. }
  split; [exact Hlabels|]. split; [exact Hsize|]. split; [exact Hbounds|].
  assert (forall k, (k < size * size)%nat ->
            exists c,
              nth_error matrix k = Some c
              /\ nth_error labels (k / size) = Some (Cell.x c)
              /\ nth_error labels (k mod size) = Some (Cell.y c)) as Hcells.
  { intros k Hk.
    assert (k / size < size)%nat as Hr
      by (apply Nat.Div0.div_lt_upper_bound; lia).
    assert (k mod size < size)%nat as Hc by (apply Nat.mod_upper_bound; lia).
    destruct (nth_error labels (k / size)) as [ci|] eqn:Eci;
      [|apply nth_error_None in Eci; lia].
    destruct (nth_error labels (k mod size)) as [cj|] eqn:Ecj;
      [|apply nth_error_None in Ecj; lia].
    destruct (heatmap_entry N _ _ _ _ _ _ _ ci cj Hmap Eci Ecj)
      as [_ Hentry].
    replace (k / size * size + k mod size)%nat with k in Hentry
      by (rewrite (Nat.div_mod_eq k size) at 1; lia).
    eexists. split; [exact Hentry|]. split; reflexivity. }
  split; [|exact Hcells].
  unfold heatmapBranch in Hmap.
  destruct (2 <=? _)%nat; [|discriminate].
  injection Hmap as <- <- <-.
  unfold correlationMatrix.
  set (cols := JS.slice 0 6 (columnsOfType numeric columns)).
  assert (forall rows : list string,
            List.length
              (flat_map (fun ci =>
                           map (fun cj =>
                                  Cell.mk ci cj (correlationOf N data ci cj))
                               cols) rows)
            = (List.length rows * List.length cols)%nat) as Hflat.
  { induction rows as [|r rows IH]; simpl; [reflexivity|].
    now rewrite length_app, length_map, IH. }
  apply Hflat.
Qed.

End CorrelationBounds.

Section LinearRelation.

Import ChartRenderer.

Local Open Scope R_scope.

Lemma affine_sums (a b : R) (x : list R) :
  sum (map (fun v => a * v + b) x) = a * sum x + INR (List.length x) * b
  /\ sumSquares (map (fun v => a * v + b) x)
     = a * a * sumSquares x + 2 * a * b * sum x
       + INR (List.length x) * (b * b)
  /\ Vector.dot x (map (fun v => a * v + b) x)
     = a * sumSquares x + b * sum x.
Proof.
  induction x as [|v x (Hs & Hq & Hd)].
  - cbn [map List.length Vector.dot INR].
    rewrite sum_nil, sumSquares_nil. repeat split; lra.
  - cbn [map Vector.dot].
    change (List.length (v :: x)) with (S (List.length x)).
    rewrite S_INR, !sum_cons, !sumSquares_cons, Hs, Hq, Hd.
    repeat split; lra.
Qed.


End LinearRelation.

Lemma heatmap_symmetric_witness :
  exists a b,
    nth_error (ChartRenderer.correlationMatrix MockBackend.decimalNumber
                 Examples.varyingData ["a"%string; "b"%string]) 1 = Some a
    /\ nth_error (ChartRenderer.correlationMatrix MockBackend.decimalNumber
                    Examples.varyingData ["a"%string; "b"%string]) 2 = Some b
    /\ Cell.value a = Cell.value b.
Proof.
  destruct (heatmap_symmetric MockBackend.decimalNumber
              Examples.varyingData Examples.twoColumns _ _ 2%nat eq_refl
              0%nat 1%nat ltac:(lia) ltac:(lia))
    as (_ & a & b & Ha & Hb & Hv & _).
  exists a, b. split; [exact Ha|]. split; [exact Hb | exact Hv].
Defined.


Lemma heatmap_layout_witness :
  List.length (ChartRenderer.correlationMatrix MockBackend.decimalNumber
                 Examples.varyingData ["a"%string; "b"%string]) = 4%nat.
Proof.
  apply (heatmap_layout MockBackend.decimalNumber
           Examples.varyingData Examples.twoColumns _ _ 2%nat eq_refl).
Defined.


(* ================================================================== *)
(** * The data-processing branches as a whole *)

Section Availability.

Import ChartRenderer ChartData.

Variable N : string -> option Q.
Variable S : Q -> string.

(** The outcomes of the data processing, by chart type, column kinds and
    emptiness of the data. *)
Lemma processed_outcomes (type : ChartTypeId)
    (data : list JS.object) (columns : list Column.t) :
  let throws :=
    (match type with LINE | AREA => true | _ => false end)
    && (List.length (columnsOfType numeric columns) =? 1)%nat
    && (match data with [] => true | _ => false end) in
  (processed N S type data columns = TypeError <-> throws = true)
  /\ (processed N S type data columns = Normal None
      <-> Grouping.sufficient type columns = false)
  /\ ((exists r, processed N S type data columns = Normal (Some r))
      <-> Grouping.sufficient type columns = true /\ throws = false).
Proof.
  unfold Grouping.sufficient, Grouping.needs, processed,
    histogramDensityBranch, heatmapBranch, barBranch, lineBranch,
    lineXColumn, scatterBranch, boxViolinBranch, ridgelineBranch.
  destruct (columnsOfType numeric columns) as [|n1 [|n2 ns]];
    destruct (columnsOfType categorical columns) as [|c1 cs];
    destruct type; destruct data as [|d0 data];
    cbn [List.length Nat.leb Nat.eqb fst snd andb option_map];
    (split; [|split]); split;
    try discriminate; try reflexivity; try tauto;
    try (intros [r Hr]; discriminate Hr);
    try (intros [H1 H2]; discriminate);
    try (intros _; eexists; reflexivity).
Qed.


Lemma analyzeCSV_data_nonempty (file : MockBackend.File)
    (stats : DatasetStats.t) :
  MockBackend.analyzeCSV N file = Resolved stats ->
  DatasetStats.data stats <> [].
Proof.
  intros Hres C.
  destruct (analyzeCSV_resolved N file stats Hres)
    as (Hge & _ & _ & _ & Hdata).
  apply (f_equal (@List.length _)) in C.
  rewrite Hdata, length_map in C. unfold Text.dataLines in C.
  rewrite slice_length in C. cbn [List.length] in C. lia.
Qed.


End Availability.



(** ** Dictionaries and their keys *)

Section Dictionaries.

Import JSObject.

Context {A : Type}.

Lemma lookup_assign_same (o : dict A) (k : string) (v : A) :
  lookup (assign o k v) k = Some v.
Proof.
  induction o as [|[k' v'] o IH]; simpl.
  - now rewrite String.eqb_refl.
  - destruct (String.eqb k' k) eqn:E; simpl; now rewrite E.
Qed.

Lemma lookup_assign_other (o : dict A) (k k' : string) (v : A) :
  k' <> k -> lookup (assign o k v) k' = lookup o k'.
Proof.
  intros Hne. apply String.eqb_neq in Hne. rewrite String.eqb_sym in Hne.
  induction o as [|[k0 v0] o IH]; simpl.
  - now rewrite Hne.
  - destruct (String.eqb_spec k0 k) as [->|Hk]; simpl.
    + now rewrite Hne.
    + now rewrite IH.
Qed.

Lemma lookup_None_iff (o : dict A) (k : string) :
  lookup o k = None <-> ~ In k (map fst o).
Proof.
  induction o as [|[k' v'] o IH]; simpl.
  - tauto.
  - destruct (String.eqb_spec k' k) as [->|Hk].
    + split; [discriminate | intros C; exfalso; apply C; now left].
    + rewrite IH. tauto.
Qed.

Lemma lookup_Some_In (o : dict A) (k : string) :
  lookup o k <> None <-> In k (map fst o).
Proof.
  rewrite lookup_None_iff.
  destruct (in_dec string_dec k (map fst o)); tauto.
Qed.

Lemma assign_names (o : dict A) (k : string) (v : A) :
  (In k (map fst o) -> map fst (assign o k v) = map fst o)
  /\ (~ In k (map fst o) -> map fst (assign o k v) = map fst o ++ [k]).
Proof.
  induction o as [|[k0 v0] o [IHin IHout]]; simpl.
  - split; [intros [] | reflexivity].
  - destruct (String.eqb_spec k0 k) as [->|Hk]; simpl.
    + split; [reflexivity | intros C; exfalso; apply C; now left].
    + split.
      * intros [C|Hin]; [contradiction|]. now rewrite IHin.
      * intros Hout. rewrite IHout; [reflexivity|]. tauto.
Qed.

Lemma assign_NoDup (o : dict A) (k : string) (v : A) :
  NoDup (map fst o) -> NoDup (map fst (assign o k v)).
Proof.
  intros Hnd. destruct (assign_names o k v) as [Hin Hout].
  destruct (in_dec string_dec k (map fst o)) as [H|H].
  - now rewrite Hin.
  - rewrite Hout by exact H.
    apply NoDup_app; [exact Hnd | repeat constructor; intros [] |].
    intros x Hx [<-|[]]. contradiction.
Qed.

Lemma insertIndex_perm (n : N) (k : string) (l : list (N * string)) :
  Permutation (insertIndex n k l) ((n, k) :: l).
Proof.
  induction l as [|[m k'] l IH]; simpl; [reflexivity|].
  destruct (n <=? m)%N; [reflexivity|].
  rewrite IH. apply perm_swap.
Qed.

(** [Object.keys] lists every property name once. *)
Lemma keys_perm (o : dict A) : Permutation (keys o) (map fst o).
Proof.
  unfold keys. induction o as [|[k v] o IH]; simpl; [reflexivity|].
  destruct (arrayIndex k) as [n|].
  - rewrite (Permutation_map snd (insertIndex_perm n k (indexKeys o))).
    simpl. now constructor.
  - rewrite <- Permutation_middle. now constructor.
Qed.

Lemma keys_In (o : dict A) (k : string) :
  In k (keys o) <-> lookup o k <> None.
Proof.
  rewrite lookup_Some_In. split; apply Permutation_in.
  - apply keys_perm.
  - symmetry. apply keys_perm.
Qed.

Lemma keys_NoDup (o : dict A) : NoDup (map fst o) -> NoDup (keys o).
Proof.
  intros Hnd. eapply Permutation_NoDup; [|exact Hnd].
  symmetry. apply keys_perm.
Qed.

End Dictionaries.

Lemma firstn_NoDup {A} (n : nat) (l : list A) :
  NoDup l -> NoDup (firstn n l).
Proof.
  intros Hnd. rewrite <- (firstn_skipn n l) in Hnd.
  now apply NoDup_app_remove_r in Hnd.
Qed.

Lemma firstn_incl {A} (n : nat) (l : list A) (x : A) :
  In x (firstn n l) -> In x l.
Proof.
  intros Hx. rewrite <- (firstn_skipn n l). apply in_or_app. now left.
Qed.

Lemma slice_from_start {A} (j : nat) (l : list A) :
  JS.slice 0 j l = firstn j l.
Proof. unfold JS.slice. now rewrite Nat.sub_0_r. Qed.

(** ** The grouped charts *)

Section GroupedCharts.

Import ChartRenderer ChartData JSObject.

Variable N : string -> option Q.
Variable S : Q -> string.

Lemma or_zero (q : Q) : JS.or q 0 == q.
Proof.
  unfold JS.or, JS.truthy. destruct (Qeq_bool q 0) eqn:E; simpl.
  - apply Qeq_bool_iff in E. now symmetry.
  - reflexivity.
Qed.

Lemma numberOrZero_Some (q : Q) : numberOrZero (Some q) == q.
Proof. apply or_zero. Qed.

(** The sums of the categorical bar chart, key by key. *)
Lemma barGroups_fold (cat num : string) (data : list JS.object)
    (g : dict Q) (k : string) :
  let keyOf := fun d => String S (JS.get d cat) in
  let g' := fold_left (addToGroup N S cat num) data g in
  (NoDup (map fst g) -> NoDup (map fst g'))
  /\ numberOrZero (lookup g' k)
     == numberOrZero (lookup g k)
        + Grouping.sumQ (map (fun d => numberOrZero (numberAt N d num))
                             (Grouping.rowsOfKey keyOf k data))
  /\ (lookup g' k <> None
      <-> lookup g k <> None \/ Grouping.rowsOfKey keyOf k data <> []).
Proof.
  intros keyOf. revert g.
  induction data as [|d data IH]; intros g; cbn [fold_left].
  - cbn. split; [tauto|]. split; [lra | tauto].
  - destruct (IH (addToGroup N S cat num g d)) as (Hnd & Hsum & Hin).
    split; [|split].
    + intros H. apply Hnd. now apply assign_NoDup.
    + rewrite Hsum. unfold addToGroup at 1. fold (keyOf d).
      unfold Grouping.rowsOfKey. cbn [filter].
      destruct (String.eqb_spec (keyOf d) k) as [->|Hk].
      * rewrite lookup_assign_same, numberOrZero_Some.
        unfold Grouping.sumQ. cbn [map fold_right]. lra.
      * rewrite lookup_assign_other by congruence. reflexivity.
    + rewrite Hin. unfold addToGroup at 1. fold (keyOf d).
      unfold Grouping.rowsOfKey. cbn [filter].
      destruct (String.eqb_spec (keyOf d) k) as [->|Hk].
      * rewrite lookup_assign_same.
        split; intros _; [right | left]; discriminate.
      * rewrite lookup_assign_other by congruence. reflexivity.
Qed.


Lemma numbersOfKey_cons (numCol : string) (keyOf : JS.object -> string)
    (k : string) (d : JS.object) (data : list JS.object) :
  Grouping.numbersOfKey N numCol keyOf k (d :: data)
  = Grouping.numbersOfKey N numCol keyOf k [d]
    ++ Grouping.numbersOfKey N numCol keyOf k data.
Proof.
  unfold Grouping.numbersOfKey, Grouping.rowsOfKey. cbn [filter].
  destruct (String.eqb (keyOf d) k); [|reflexivity].
  cbn [map JS.filterNotNaN].
  destruct (numberAt N d numCol); reflexivity.
Qed.

(** One row pushed to its group. *)
Lemma pushToGroup_step (numCol : string) (keyOf : JS.object -> string)
    (g : dict (list Q)) (d : JS.object) (k : string) :
  let g1 := pushToGroup N numCol keyOf g d in
  let new := Grouping.numbersOfKey N numCol keyOf k [d] in
  (NoDup (map fst g) -> NoDup (map fst g1))
  /\ valuesOf g1 k = valuesOf g k ++ new
  /\ (lookup g1 k <> None <-> lookup g k <> None \/ new <> []).
Proof.
  unfold Grouping.numbersOfKey, Grouping.rowsOfKey, pushToGroup.
  cbn [filter].
  destruct (numberAt N d numCol) as [v|] eqn:Ev.
  - set (g0 := match lookup g (keyOf d) with
               | Some _ => g
               | None => assign g (keyOf d) []
               end).
    assert (valuesOf g0 (keyOf d) = valuesOf g (keyOf d)) as Hsame.
    { unfold g0, valuesOf.
      destruct (lookup g (keyOf d)) eqn:E; [now rewrite E|].
      now rewrite lookup_assign_same. }
    assert (forall k', k' <> keyOf d -> lookup g0 k' = lookup g k')
      as Hother.
    { intros k' Hk'. unfold g0.
      destruct (lookup g (keyOf d)); [reflexivity|].
      now apply lookup_assign_other. }
    assert (NoDup (map fst g) -> NoDup (map fst g0)) as Hnd0.
    { intros H. unfold g0. destruct (lookup g (keyOf d));
        [exact H | now apply assign_NoDup]. }
    split; [intros H; apply assign_NoDup, Hnd0, H|].
    destruct (String.eqb_spec (keyOf d) k) as [<-|Hk].
    + cbn [map JS.filterNotNaN]. rewrite Ev.
      unfold valuesOf at 1. rewrite lookup_assign_same, Hsame.
      split; [reflexivity|].
      split; intros _; [right | ]; discriminate.
    + cbn [map JS.filterNotNaN]. rewrite app_nil_r.
      unfold valuesOf at 1 3.
      rewrite lookup_assign_other by congruence.
      rewrite Hother by congruence.
      split; [reflexivity | tauto].
  - split; [tauto|].
    destruct (String.eqb (keyOf d) k); cbn [map JS.filterNotNaN];
      rewrite ?Ev; rewrite app_nil_r; split; tauto || reflexivity.
Qed.

(** The groups of the box, violin and ridgeline charts, key by key. *)
Lemma groupValues_fold (numCol : string) (keyOf : JS.object -> string)
    (data : list JS.object) (g : dict (list Q)) (k : string) :
  let g' := fold_left (pushToGroup N numCol keyOf) data g in
  (NoDup (map fst g) -> NoDup (map fst g'))
  /\ valuesOf g' k
     = valuesOf g k ++ Grouping.numbersOfKey N numCol keyOf k data
  /\ (lookup g' k <> None
      <-> lookup g k <> None
          \/ Grouping.numbersOfKey N numCol keyOf k data <> []).
Proof.
  revert g. induction data as [|d data IH]; intros g; cbn [fold_left].
  - cbn. rewrite app_nil_r. split; [tauto|]. split; [reflexivity | tauto].
  - destruct (IH (pushToGroup N numCol keyOf g d)) as (Hnd & Hvals & Hin).
    destruct (pushToGroup_step numCol keyOf g d k) as (Hnd1 & Hv1 & Hin1).
    rewrite numbersOfKey_cons.
    split; [tauto|]. split.
    + now rewrite Hvals, Hv1, <- app_assoc.
    + rewrite Hin, Hin1.
      destruct (Grouping.numbersOfKey N numCol keyOf k [d]); cbn [app].
      * tauto.
      * split; intros _; [right | left; right]; discriminate.
Qed.

(** The first groups of a grouped chart: at most five, with pairwise
    different names, each one holding, in row order, the numbers of the
    rows of its key, at least one. *)
Lemma first_groups (numCol : string) (keyOf : JS.object -> string)
    (data : list JS.object) :
  let groups := groupValues N data numCol keyOf in
  let keys := JS.slice 0 5 (JSObject.keys groups) in
  (List.length keys <= 5)%nat
  /\ NoDup keys
  /\ forall k, In k keys ->
       valuesOf groups k = Grouping.numbersOfKey N numCol keyOf k data
       /\ Grouping.numbersOfKey N numCol keyOf k data <> [].
Proof.
  intros groups keys. unfold keys. rewrite slice_from_start.
  destruct (groupValues_fold numCol keyOf data [] EmptyString)
    as (Hnd & _ & _).
  split; [rewrite length_firstn; lia|].
  split; [apply firstn_NoDup, keys_NoDup, Hnd; constructor|].
  intros k Hk. apply firstn_incl, keys_In in Hk.
  destruct (groupValues_fold numCol keyOf data [] k) as (_ & Hv & Hin).
  fold groups in Hv, Hin. cbn in Hv.
  split; [exact Hv|].
  apply Hin in Hk. destruct Hk as [C|Hk]; [now cbn in C | exact Hk].
Qed.

Lemma allNumbers_defined (a : list (option Q)) :
  Forall (fun o => o <> None) a ->
  exists l, allNumbers a = Some l /\ a = map Some l.
Proof.
  induction 1 as [|o a Ho Ha (l & El & Hl)]; [now exists []|].
  destruct o as [q|]; [|congruence].
  exists (q :: l). cbn [allNumbers map]. rewrite El, Hl. split; reflexivity.
Qed.

(** X17. The box plot has at most 5 boxes with pairwise different labels.
    Each box summarises, with [getQuantiles], the numbers of its category in
    row order, at least one; its five values are in order and lie inside the
    vertical range of the chart, which is therefore a pair of numbers. *)
Theorem box_groups (data : list JS.object) (columns : list Column.t)
    (boxes : list (string * Quantiles.t)) (lo hi : option Q)
    (xLabel yLabel : string)
    (Hbox : boxViolinBranch N S BOX data columns
            = Some (Box boxes (lo, hi) xLabel yLabel)) :
  let keyOf := boxKey S (hd_error (columnsOfType categorical columns)) in
  (List.length boxes <= 5)%nat
  /\ NoDup (map fst boxes)
  /\ forall k stats, In (k, stats) boxes ->
       let vals := Grouping.numbersOfKey N yLabel keyOf k data in
       vals <> []
       /\ stats = getQuantiles vals
       /\ exists mn q0 q1 q2 q3 q4 mx,
            lo = Some mn /\ hi = Some mx
            /\ stats = Quantiles.mk (Some q0) (Some q1) (Some q2)
                                     (Some q3) (Some q4)
            /\ mn <= q0 /\ q0 <= q1 /\ q1 <= q2 /\ q2 <= q3 /\ q3 <= q4
            /\ q4 <= mx.
Proof.
  intros keyOf. unfold boxViolinBranch in Hbox.
  destruct (columnsOfType numeric columns) as [|numCol ns]; [discriminate|].
  fold keyOf in Hbox.
  set (groups := groupValues N data numCol keyOf) in *.
  set (keys := JS.slice 0 5 (JSObject.keys groups)) in *.
  injection Hbox as <- <- <- _ <-.
  destruct (first_groups numCol keyOf data) as (Hlen & Hnd & Hgroups).
  fold groups keys in Hlen, Hnd, Hgroups.
  set (boxes := map (fun k => (k, getQuantiles (valuesOf groups k))) keys).
  assert (map fst boxes = keys) as Hfst
    by (unfold boxes; rewrite map_map; apply map_id).
  split; [unfold boxes; now rewrite length_map|].
  split; [now rewrite Hfst|].
  assert (forall k stats, In (k, stats) boxes ->
            Grouping.numbersOfKey N numCol keyOf k data <> []
            /\ stats
               = getQuantiles (Grouping.numbersOfKey N numCol keyOf k data))
    as Hbox.
  { intros k stats Hin. unfold boxes in Hin. apply in_map_iff in Hin.
    destruct Hin as (k' & E & Hk'). injection E as <- <-.
    destruct (Hgroups k' Hk') as [-> Hne]. split; [exact Hne | reflexivity]. }
  assert (Forall (fun o => o <> None)
                 (map (fun b => Quantiles.min (snd b)) boxes)
          /\ Forall (fun o => o <> None)
                    (map (fun b => Quantiles.max (snd b)) boxes))
    as [Hmins Hmaxs].
  { split; apply Forall_forall; intros o Ho; apply in_map_iff in Ho;
      destruct Ho as ([k stats] & <- & Hin);
      destruct (Hbox k stats Hin) as [Hne ->];
      destruct (getQuantiles_nonempty _ Hne)
        as (q0 & q1 & q2 & q3 & q4 & -> & _); discriminate. }
  destruct (allNumbers_defined _ Hmins) as (mins & Emins & Hmins').
  destruct (allNumbers_defined _ Hmaxs) as (maxs & Emaxs & Hmaxs').
  intros k stats Hin. destruct (Hbox k stats Hin) as [Hne Hstats].
  split; [exact Hne|]. split; [exact Hstats|].
  destruct (getQuantiles_nonempty _ Hne)
    as (q0 & q1 & q2 & q3 & q4 & Eq & (H01 & H12 & H23 & H34) & _).
  exists (JS.Math_min mins), q0, q1, q2, q3, q4, (JS.Math_max maxs).
  unfold Math_min_of, Math_max_of. rewrite Emins, Emaxs.
  split; [reflexivity|]. split; [reflexivity|].
  split; [now rewrite Hstats|].
  assert (In (Some q0) (map (fun b => Quantiles.min (snd b)) boxes)) as I0.
  { apply in_map_iff. exists (k, stats). split; [|exact Hin].
    cbn [snd]. now rewrite Hstats, Eq. }
  assert (In (Some q4) (map (fun b => Quantiles.max (snd b)) boxes)) as I4.
  { apply in_map_iff. exists (k, stats). split; [|exact Hin].
    cbn [snd]. now rewrite Hstats, Eq. }
  rewrite Hmins' in I0. rewrite Hmaxs' in I4.
  apply in_map_iff in I0. destruct I0 as (x0 & E0 & I0).
  apply in_map_iff in I4. destruct I4 as (x4 & E4 & I4).
  injection E0 as ->. injection E4 as ->.
  split; [now apply Math_min_le|].
  repeat (split; [assumption|]). now apply Math_max_ge.
Qed.

Lemma getDensity_length (data : list Q) (binCount : nat) :
  data <> [] -> (0 < binCount)%nat ->
  List.length (getDensity data binCount) = binCount.
Proof.
  intros Hne Hbins. unfold getDensity.
  destruct data as [|d data]; [congruence|].
  unfold smooth, JS.mapi. rewrite !mapi_from_length.
  now apply densityBins_total.
Qed.

(** The curves of the first groups, for the violin and the ridgeline
    charts alike. *)
Lemma density_curves (numCol : string) (keyOf : JS.object -> string)
    (data : list JS.object) (binCount : nat) :
  (0 < binCount)%nat ->
  let groups := groupValues N data numCol keyOf in
  let keys := JS.slice 0 5 (JSObject.keys groups) in
  let curves := map (fun k => (k, getDensity (valuesOf groups k) binCount))
                    keys in
  let allVals := flat_map (valuesOf groups) keys in
  (List.length curves <= 5)%nat
  /\ NoDup (map fst curves)
  /\ forall k curve, In (k, curve) curves ->
       let vals := Grouping.numbersOfKey N numCol keyOf k data in
       vals <> []
       /\ curve = getDensity vals binCount
       /\ List.length curve = binCount
       /\ forall v, In v vals ->
            JS.Math_min allVals <= v <= JS.Math_max allVals.
Proof.
  intros Hbins groups keys curves allVals.
  destruct (first_groups numCol keyOf data) as (Hlen & Hnd & Hgroups).
  fold groups keys in Hlen, Hnd, Hgroups.
  assert (map fst curves = keys) as Hfst
    by (unfold curves; rewrite map_map; apply map_id).
  split; [unfold curves; now rewrite length_map|].
  split; [now rewrite Hfst|].
  intros k curve Hin. unfold curves in Hin. apply in_map_iff in Hin.
  destruct Hin as (k' & E & Hk'). injection E as <- <-.
  destruct (Hgroups k' Hk') as [Hv Hne].
  cbv zeta. rewrite Hv.
  split; [exact Hne|]. split; [reflexivity|].
  split; [now apply getDensity_length|].
  intros v Hin.
  assert (In v allVals) as Hall.
  { unfold allVals. apply in_flat_map. exists k'.
    split; [exact Hk' | now rewrite Hv]. }
  split; [now apply Math_min_le | now apply Math_max_ge].
Qed.

(** X18. The violin chart and the ridgeline chart draw at most 5 curves
    with pairwise different labels.  Each curve is the density, over 20 bins
    for the violin and 40 for the ridgeline, of the numbers of its group in
    row order, at least one, so it has that many points; and every number
    of a drawn group lies inside the range of the chart. *)
Theorem density_groups (data : list JS.object) (columns : list Column.t) :
  (forall violins lo hi xLabel yLabel,
     boxViolinBranch N S VIOLIN data columns
       = Some (Violin violins (lo, hi) xLabel yLabel) ->
     let keyOf := boxKey S (hd_error (columnsOfType categorical columns)) in
     (List.length violins <= 5)%nat
     /\ NoDup (map fst violins)
     /\ forall k curve, In (k, curve) violins ->
          let vals := Grouping.numbersOfKey N yLabel keyOf k data in
          vals <> []
          /\ curve = getDensity vals 20
          /\ List.length curve = 20%nat
          /\ forall v, In v vals -> lo <= v <= hi)
  /\
  (forall lines lo hi xLabel,
     ridgelineBranch N S RIDGELINE data columns
       = Some (Ridgeline lines (lo, hi) xLabel) ->
     let keyOf :=
       ridgelineKey S (match columnsOfType categorical columns with
                       | c :: _ => c
                       | [] => "Category"%string
                       end) in
     (List.length lines <= 5)%nat
     /\ NoDup (map fst lines)
     /\ forall k curve, In (k, curve) lines ->
          let vals := Grouping.numbersOfKey N xLabel keyOf k data in
          vals <> []
          /\ curve = getDensity vals 40
          /\ List.length curve = 40%nat
          /\ forall v, In v vals -> lo <= v <= hi).
Proof.
  split.
  - intros violins lo hi xLabel yLabel Hv keyOf.
    unfold boxViolinBranch in Hv.
    destruct (columnsOfType numeric columns) as [|numCol ns];
      [discriminate|].
    injection Hv as <- <- <- _ <-.
    apply (density_curves numCol keyOf data 20). lia.
  - intros lines lo hi xLabel Hr keyOf.
    unfold ridgelineBranch in Hr.
    destruct (columnsOfType numeric columns) as [|numCol ns];
      [discriminate|].
    injection Hr as <- <- <- <-.
    apply (density_curves numCol keyOf data 40). lia.
Qed.

(** With one key for every row, the groups are the single group of all the
    numbers of the column, or no group when there is none. *)
Lemma constant_key_groups (numCol : string) (keyOf : JS.object -> string)
    (k0 : string) (data : list JS.object) :
  (forall d, keyOf d = k0) ->
  groupValues N data numCol keyOf
  = match getNums N data numCol with
    | [] => []
    | vals => [(k0, vals)]
    end.
Proof.
  intros Hconst. unfold groupValues.
  assert (forall rows acc,
            fold_left (pushToGroup N numCol keyOf) rows [(k0, acc)]
            = [(k0, acc ++ getNums N rows numCol)]) as Hfilled.
  { induction rows as [|d rows IH]; intros acc; cbn [fold_left].
    - unfold getNums. cbn. now rewrite app_nil_r.
    - unfold pushToGroup at 2. unfold getNums. cbn [map JS.filterNotNaN].
      fold (numberAt N d numCol).
      destruct (numberAt N d numCol) as [v|]; [|apply IH].
      rewrite Hconst. unfold valuesOf. cbn [lookup assign].
      rewrite String.eqb_refl. cbn [lookup assign].
      rewrite String.eqb_refl. rewrite IH.
      unfold getNums. now rewrite <- app_assoc. }
  induction data as [|d data IH]; cbn [fold_left]; [reflexivity|].
  unfold pushToGroup at 2. unfold getNums. cbn [map JS.filterNotNaN].
  fold (numberAt N d numCol).
  destruct (numberAt N d numCol) as [v|]; [|exact IH].
  rewrite Hconst. unfold valuesOf. cbn [lookup assign].
  rewrite ?String.eqb_refl. cbn [lookup assign app].
  rewrite ?String.eqb_refl. rewrite Hfilled. reflexivity.
Qed.

Lemma keys_singleton {A} (k : string) (v : A) : keys [(k, v)] = [k].
Proof.
  unfold keys. cbn [indexKeys nameKeys].
  destruct (arrayIndex k); reflexivity.
Qed.

(** The one curve, or none, of a chart whose rows all have the key [k0]. *)
Lemma single_group_curves (numCol : string) (keyOf : JS.object -> string)
    (k0 : string) (data : list JS.object) (binCount : nat) :
  (forall d, keyOf d = k0) ->
  let groups := groupValues N data numCol keyOf in
  let keys := JS.slice 0 5 (JSObject.keys groups) in
  keys = match getNums N data numCol with [] => [] | _ => [k0] end
  /\ flat_map (valuesOf groups) keys = getNums N data numCol
  /\ map (fun k => (k, getDensity (valuesOf groups k) binCount)) keys
     = match getNums N data numCol with
       | [] => []
       | vals => [(k0, getDensity vals binCount)]
       end
  /\ map (fun k => (k, getQuantiles (valuesOf groups k))) keys
     = match getNums N data numCol with
       | [] => []
       | vals => [(k0, getQuantiles vals)]
       end.
Proof.
  intros Hconst groups keys. unfold keys, groups.
  rewrite (constant_key_groups numCol keyOf k0 data Hconst).
  destruct (getNums N data numCol) as [|v vals].
  - repeat split.
  - rewrite keys_singleton. unfold valuesOf. cbn.
    rewrite String.eqb_refl, app_nil_r. repeat split.
Qed.

(** X19. Without a categorical column the ridgeline chart draws one curve
    labelled "Group 1" over all the numbers of the first numeric column, and
    the violin chart one curve labelled "All" (no curve when the column has
    no number).  A categorical column is ignored in the same way when its
    name is "Category", for the ridgeline chart, or the empty name, for the
    violin chart. *)
Theorem single_group_charts (data : list JS.object)
    (columns : list Column.t) (numCol : string) (ns : list string)
    (Hnum : columnsOfType numeric columns = numCol :: ns) :
  let nums := getNums N data numCol in
  let range := (JS.Math_min nums, JS.Math_max nums) in
  ((columnsOfType categorical columns = []
    \/ hd_error (columnsOfType categorical columns)
       = Some "Category"%string) ->
   ridgelineBranch N S RIDGELINE data columns
   = Some (Ridgeline
             (match nums with
              | [] => []
              | vals => [("Group 1"%string, getDensity vals 40)]
              end)
             range numCol))
  /\
  ((columnsOfType categorical columns = []
    \/ hd_error (columnsOfType categorical columns) = Some EmptyString) ->
   boxViolinBranch N S VIOLIN data columns
   = Some (Violin
             (match nums with
              | [] => []
              | vals => [("All"%string, getDensity vals 20)]
              end)
             range EmptyString numCol)).
Proof.
  intros nums range. split; intros Hcat.
  - unfold ridgelineBranch. rewrite Hnum.
    set (catCol := match columnsOfType categorical columns with
                   | c :: _ => c
                   | [] => "Category"%string
                   end).
    assert (catCol = "Category"%string) as Hname.
    { unfold catCol. destruct Hcat as [->|Hcat]; [reflexivity|].
      destruct (columnsOfType categorical columns); [reflexivity|].
      now injection Hcat. }
    destruct (single_group_curves numCol (ridgelineKey S catCol)
                "Group 1"%string data 40) as (_ & Hall & Hcurves & _).
    { intros d. unfold ridgelineKey. now rewrite Hname. }
    rewrite Hall, Hcurves. unfold range, nums.
    destruct (getNums N data numCol); reflexivity.
  - unfold boxViolinBranch. rewrite Hnum.
    set (catCol := hd_error (columnsOfType categorical columns)).
    assert (boxXLabel catCol = EmptyString
            /\ forall d, boxKey S catCol d = "All"%string) as [Hx Hkey].
    { unfold catCol. destruct Hcat as [-> | ->]; split; reflexivity. }
    destruct (single_group_curves numCol (boxKey S catCol)
                "All"%string data 20 Hkey) as (_ & Hall & Hcurves & _).
    rewrite Hall, Hcurves, Hx. unfold range, nums.
    destruct (getNums N data numCol); reflexivity.
Qed.

End GroupedCharts.


Lemma box_groups_witness :
  (List.length
     (map (fun k => (k, ChartRenderer.getQuantiles
                          (ChartData.valuesOf GroupExamples.groups k)))
          (JS.slice 0 5 (JSObject.keys GroupExamples.groups))) <= 5)%nat.
Proof.
  apply (box_groups MockBackend.decimalNumber GroupExamples.noText
           GroupExamples.rows GroupExamples.columns
           (map (fun k => (k, ChartRenderer.getQuantiles
                                (ChartData.valuesOf GroupExamples.groups k)))
                (JS.slice 0 5 (JSObject.keys GroupExamples.groups)))
           (Some 1) (Some 3) "c"%string "n"%string eq_refl).
Defined.

Lemma density_groups_witness :
  (List.length
     (map (fun k => (k, ChartRenderer.getDensity
                          (ChartData.valuesOf GroupExamples.groups k) 20))
          (JS.slice 0 5 (JSObject.keys GroupExamples.groups))) <= 5)%nat.
Proof.
  apply (proj1 (density_groups MockBackend.decimalNumber
                  GroupExamples.noText GroupExamples.rows
                  GroupExamples.columns)
           (map (fun k => (k, ChartRenderer.getDensity
                                (ChartData.valuesOf GroupExamples.groups k)
                                20))
                (JS.slice 0 5 (JSObject.keys GroupExamples.groups)))
           1 3 "c"%string "n"%string eq_refl).
Defined.

Lemma single_group_charts_witness :
  ChartData.ridgelineBranch MockBackend.decimalNumber GroupExamples.noText
    RIDGELINE GroupExamples.categoryRows GroupExamples.categoryColumns
  = Some (ChartData.Ridgeline
            [("Group 1"%string, ChartRenderer.getDensity [1; 2] 40)]
            (1, 2) "n").
Proof.
  apply (proj1 (single_group_charts MockBackend.decimalNumber
                  GroupExamples.noText GroupExamples.categoryRows
                  GroupExamples.categoryColumns "n"%string [] eq_refl)).
  right. reflexivity.
Defined.

(* ================================================================== *)
(** * The geometry of the drawing *)

Section RenderGeometry.

Import ChartRenderer Render.

Lemma fold_max2_In (a : list Q) (acc : Q) :
  In (fold_left JS.max2 a acc) (acc :: a).
Proof.
  revert acc. induction a as [|w a IH]; intros acc; cbn [fold_left].
  - now left.
  - destruct (IH (JS.max2 acc w)) as [H|H].
    + rewrite <- H. unfold JS.max2.
      destruct (Qle_bool acc w); [right; now left | now left].
    + right. now right.
Qed.

Lemma Math_max_In (a : list Q) : a <> [] -> In (JS.Math_max a) a.
Proof.
  destruct a as [|v a]; [congruence|]. intros _. apply fold_max2_In.
Qed.

Lemma lengthOf_positive {A} (a : list A) : a <> [] -> 0 < lengthOf a.
Proof.
  intros Hne. unfold lengthOf. change 0 with (inject_Z 0).
  rewrite <- Zlt_Qlt. destruct a; [congruence | simpl; lia].
Qed.

Lemma plot_sizes : plotW == 480 /\ plotH == 230.
Proof. split; reflexivity. Qed.

Lemma nth_error_mapi {A B} (f : A -> Z -> B) (a : list A) (i : nat) :
  nth_error (JS.mapi f a) i
  = option_map (fun v => f v (Z.of_nat i)) (nth_error a i).
Proof. unfold JS.mapi. now rewrite nth_error_mapi_from. Qed.

(** X20. The rectangles of a bar chart share one width, seven tenths of
    their share of the plot width; they stand on the horizontal axis, lie
    between the left and the right edge of the plot, and each one starts
    one gap, three tenths of a share, after the end of the one before. *)
Theorem bar_layout (values : list Q) (Hne : values <> [])
    (i : nat) (r : Rect.t)
    (Hr : nth_error (barRects values) i = Some r) :
  Rect.width r == (7 # 10) * (plotW / lengthOf values)
  /\ 0 < Rect.width r
  /\ padding <= Rect.x r
  /\ Rect.x r + Rect.width r <= width - padding
  /\ Rect.y r + Rect.height r == height - padding
  /\ forall r', nth_error (barRects values) (S i) = Some r' ->
       Rect.x r' == Rect.x r + Rect.width r
                    + (3 # 10) * (plotW / lengthOf values).
Proof.
  pose proof (lengthOf_positive values Hne) as Hn.
  unfold barRects in *. rewrite nth_error_mapi in Hr.
  destruct (nth_error values i) as [v|] eqn:Ev; [|discriminate].
  cbn [option_map] in Hr. injection Hr as <-.
  cbn [Rect.width Rect.x Rect.y Rect.height].
  assert (Z.of_nat i + 1 <= Z.of_nat (List.length values))%Z as Hi.
  { assert (i < List.length values)%nat
      by (apply nth_error_Some; congruence). lia. }
  rewrite Zle_Qle, inject_Z_plus in Hi. fold (lengthOf values) in Hi.
  assert (0 <= inject_Z (Z.of_nat i)) as Hi0
    by (apply inject_Z_nonneg; lia).
  unfold barW, gap.
  set (n := lengthOf values) in *.
  set (u := plotW / n).
  assert (n * u == 480) as Hu
    by (unfold u, plotW, width, padding; field; lra).
  assert (0 < u) as Hu0.
  { unfold u. apply Qlt_shift_div_l; [exact Hn|]. rewrite Qmult_0_l.
    reflexivity. }
  set (ii := inject_Z (Z.of_nat i)) in *.
  change (inject_Z 1) with 1 in Hi.
  assert (0 <= ii * u) as Hp0
    by (apply Qmult_le_0_compat; [exact Hi0 | lra]).
  assert (ii * u + u <= 480) as Hp1.
  { rewrite <- Hu.
    setoid_replace (ii * u + u) with ((ii + 1) * u) by ring.
    apply Qmult_le_compat_r; lra. }
  assert (u * 0.3 / 2 == u * (3 # 20)) as Hhalf by field.
  unfold width, padding, height.
  split; [lra|]. split; [lra|]. split; [lra|]. split; [lra|].
  split; [lra|].
  intros r' Hr'. rewrite nth_error_mapi in Hr'.
  destruct (nth_error values (S i)) as [v'|]; [|discriminate].
  cbn [option_map] in Hr'. injection Hr' as <-. cbn [Rect.x].
  change (Z.pos (Pos.of_succ_nat i)) with (Z.of_nat (Datatypes.S i)).
  rewrite Nat2Z.inj_succ. unfold Z.succ. rewrite inject_Z_plus.
  fold ii. change (inject_Z 1) with 1. lra.
Qed.

Lemma incrementAt_nonneg_list (bins : list Z) (idx : Z) :
  Forall (fun b => (0 <= b)%Z) bins ->
  Forall (fun b => (0 <= b)%Z) (increment bins idx).
Proof.
  intros H. unfold increment.
  destruct (idx <? 0)%Z; [exact H | now apply incrementAt_nonneg].
Qed.

Lemma histogramBins_nonneg (vals : list Q) :
  Forall (fun b => (0 <= b)%Z) (histogramBins vals).
Proof.
  unfold histogramBins.
  set (f := fun bins v => increment bins _).
  assert (forall rows bins,
            Forall (fun b => (0 <= b)%Z) bins ->
            Forall (fun b => (0 <= b)%Z) (fold_left f rows bins)) as Hfold.
  { induction rows as [|v rows IH]; intros bins Hb; cbn [fold_left];
      [exact Hb|].
    apply IH. unfold f. now apply incrementAt_nonneg_list. }
  apply Hfold. apply Forall_forall. intros b Hb.
  apply repeat_spec in Hb. lia.
Qed.

(** X21. The histogram is drawn as 15 rectangles.  With at least one
    number in the column every rectangle is at most as high as the plot
    and starts below its top edge, and the fullest bin is drawn over the
    whole height.  With no number at all the 15 counts are 0 and every
    rectangle is drawn at half the height of the plot. *)
Theorem histogram_bar_heights (vals : list Q) :
  let rects := barRects (map inject_Z (histogramBins vals)) in
  List.length rects = 15%nat
  /\ (vals <> [] ->
      (forall r, In r rects ->
         0 <= Rect.height r <= plotH /\ padding <= Rect.y r)
      /\ exists r, In r rects /\ Rect.height r == plotH)
  /\ (vals = [] ->
      forall r, In r rects -> Rect.height r == plotH / 2).
Proof.
  intros rects.
  destruct (histogramBins_total vals) as [Hlen Htot].
  pose proof (histogramBins_nonneg vals) as Hnn.
  set (values := map inject_Z (histogramBins vals)) in *.
  assert (List.length rects = 15%nat) as Hrects.
  { unfold rects, barRects, JS.mapi.
    rewrite mapi_from_length. unfold values. now rewrite length_map. }
  split; [exact Hrects|]. split.
  - intros Hne.
    assert (values <> []) as Hvalues.
    { intros C. apply (f_equal (@List.length _)) in C.
      unfold values in C. rewrite length_map, Hlen in C. discriminate. }
    assert (forall v, In v values -> 0 <= v <= JS.Math_max values) as Hv.
    { intros v Hin. split; [|now apply Math_max_ge].
      unfold values in Hin. apply in_map_iff in Hin.
      destruct Hin as (b & <- & Hb). apply inject_Z_nonneg.
      rewrite Forall_forall in Hnn. now apply Hnn. }
    assert (1 <= JS.Math_max values) as Hmax.
    { destruct (total_positive_bin _ Hnn) as (i & b & Hb & Hb1).
      - rewrite Htot. destruct vals; [congruence | simpl; lia].
      - apply Qle_trans with (inject_Z b); [now apply inject_Z_ge_one|].
        apply Math_max_ge. unfold values. apply in_map.
        eapply nth_error_In. exact Hb. }
    assert (forall r, In r rects ->
              exists v, In v values
                        /\ Rect.height r
                           = scale v 0 (JS.Math_max values) 0 plotH
                        /\ Rect.y r = height - padding - Rect.height r)
      as Hrect.
    { intros r Hin. apply In_nth_error in Hin. destruct Hin as [i Hi].
      unfold rects, barRects in Hi. rewrite nth_error_mapi in Hi.
      destruct (nth_error values i) as [v|] eqn:Ev; [|discriminate].
      cbn [option_map] in Hi. injection Hi as <-.
      exists v. split; [eapply nth_error_In; exact Ev|].
      split; reflexivity. }
    split.
    + intros r Hin. destruct (Hrect r Hin) as (v & Hvin & Hh & Hy).
      rewrite Hy, Hh.
      destruct (scale_between v 0 (JS.Math_max values) 0 plotH
                  (Hv v Hvin)) as [Hup _].
      destruct plot_sizes as [_ HH].
      specialize (Hup ltac:(lra)).
      unfold height, padding. lra.
    + pose proof (Math_max_In values Hvalues) as Hin.
      apply In_nth_error in Hin. destruct Hin as [i Hi].
      eexists. split.
      * eapply nth_error_In. unfold rects, barRects.
        rewrite nth_error_mapi, Hi. reflexivity.
      * cbn [Rect.height].
        rewrite scale_nondegenerate by lra. field. lra.
  - intros ->. intros r Hin.
    unfold rects, values in Hin.
    change (histogramBins []) with (repeat 0%Z histogramBinCount) in Hin.
    cbv in Hin.
    repeat (destruct Hin as [<-|Hin]; [reflexivity|]).
    destruct Hin.
Qed.

(** X22. Every point of a line or area chart lies inside the plot; the
    first value is drawn at the left edge and the last at the right edge,
    the values in between at equal steps; a single value is drawn at the
    centre of the plot. *)
Theorem line_points_in_plot (values : list Q) (Hne : values <> []) :
  (forall p, In p (linePoints values) ->
     padding <= fst p <= width - padding
     /\ padding <= snd p <= height - padding)
  /\ ((2 <= List.length values)%nat ->
      forall i p, nth_error (linePoints values) i = Some p ->
        fst p == padding
                 + inject_Z (Z.of_nat i) * (plotW / (lengthOf values - 1)))
  /\ (forall v, values = [v] ->
      exists p, linePoints values = [p]
                /\ fst p == 300 /\ snd p == 175).
Proof.
  assert (forall i p, nth_error (linePoints values) i = Some p ->
            exists v,
              nth_error values i = Some v
              /\ fst p = scale (inject_Z (Z.of_nat i)) 0
                               (lengthOf values - 1)
                               padding (width - padding)
              /\ snd p = scale v (JS.Math_min values) (JS.Math_max values)
                               (height - padding) padding) as Hpoint.
  { intros i p Hp. unfold linePoints in Hp. rewrite nth_error_mapi in Hp.
    destruct (nth_error values i) as [v|]; [|discriminate].
    cbn [option_map] in Hp. injection Hp as <-.
    exists v. repeat split. }
  split; [|split].
  - intros p Hin. apply In_nth_error in Hin. destruct Hin as [i Hi].
    destruct (Hpoint i p Hi) as (v & Ev & -> & ->).
    assert (i < List.length values)%nat as Hlt
      by (apply nth_error_Some; congruence).
    assert (0 <= inject_Z (Z.of_nat i) <= lengthOf values - 1) as Hi'.
    { split; [apply inject_Z_nonneg; lia|].
      unfold lengthOf.
      replace (inject_Z (Z.of_nat (List.length values)) - 1)
        with (inject_Z (Z.of_nat (List.length values))
              + inject_Z (-1)) by reflexivity.
      rewrite <- inject_Z_plus, <- Zle_Qle. lia. }
    apply nth_error_In in Ev.
    pose proof (Math_min_le values v Ev).
    pose proof (Math_max_ge values v Ev).
    split.
    + apply (scale_between _ _ _ _ _ Hi'). unfold width, padding. lra.
    + apply (scale_between v); [split; assumption|].
      unfold height, padding. lra.
  - intros Hlen i p Hp.
    destruct (Hpoint i p Hp) as (v & _ & -> & _).
    assert (2 <= lengthOf values) as Hn.
    { unfold lengthOf. change 2 with (inject_Z 2).
      rewrite <- Zle_Qle. lia. }
    rewrite scale_nondegenerate by lra.
    unfold plotW, width, padding. field. lra.
  - intros v ->. eexists. split; [reflexivity|].
    cbn [fst snd]. unfold scale.
    cbn [lengthOf List.length JS.Math_min JS.Math_max fold_left].
    rewrite (Qeq_bool_refl v).
    split; reflexivity.
Qed.

(** X23. Every point of the density chart of a column with at least one
    number lies inside the plot; when all the numbers are equal the whole
    curve is drawn on the vertical line through the centre. *)
Theorem density_points_in_plot (vals : list Q) (Hne : vals <> []) :
  let range := (JS.Math_min vals, JS.Math_max vals) in
  let points := densityPoints (getDensity vals defaultBinCount) range in
  List.length points = 30%nat
  /\ (forall p, In p points ->
        padding <= fst p <= width - padding
        /\ padding <= snd p <= height - padding)
  /\ (JS.Math_min vals == JS.Math_max vals ->
      forall p, In p points -> fst p == 300).
Proof.
  intros range points.
  destruct (getDensity_points vals defaultBinCount Hne ltac:(unfold defaultBinCount; lia))
    as (Hlen & Hcurve & _).
  pose proof (Math_min_le_max vals) as Hmm.
  assert (forall p, In p points ->
            exists q, In q (getDensity vals defaultBinCount)
                      /\ fst p = scale (Point.x q) (JS.Math_min vals)
                                       (JS.Math_max vals)
                                       padding (width - padding)
                      /\ snd p = scale (Point.y q) 0
                                   (JS.Math_max
                                      (map Point.y
                                           (getDensity vals defaultBinCount)))
                                   (height - padding) padding) as Hpoint.
  { intros p Hin. unfold points, densityPoints in Hin.
    apply in_map_iff in Hin. destruct Hin as (q & <- & Hq).
    exists q. repeat split. exact Hq. }
  split; [unfold points, densityPoints; now rewrite length_map|].
  split.
  - intros p Hin. destruct (Hpoint p Hin) as (q & Hq & -> & ->).
    pose proof Hq as Hq'. apply In_nth_error in Hq'.
    destruct Hq' as [i Hi].
    destruct (Hcurve i q Hi) as (_ & Hlo & Hhi & Hy & _).
    split.
    + apply scale_between_or_flat; [|unfold width, padding; lra].
      destruct (Qeq_dec (JS.Math_max vals) (JS.Math_min vals)) as [E|E];
        [now left | right].
      split; [exact Hlo|].
      unfold densityRange in Hhi.
      rewrite or_one_of_nonzero in Hhi by lra. lra.
    + apply (scale_between (Point.y q)); [|unfold height, padding; lra].
      split; [exact Hy|]. apply Math_max_ge. now apply in_map.
  - intros Hflat p Hin. destruct (Hpoint p Hin) as (q & _ & -> & _).
    unfold scale. symmetry in Hflat. apply Qeq_bool_iff in Hflat.
    rewrite Hflat. reflexivity.
Qed.

Lemma cellSize_value (size : nat) :
  cellSize size == 230 / inject_Z (Z.of_nat size).
Proof. unfold cellSize. reflexivity. Qed.

(** X24. For 1 to 6 columns, the square of every cell of the heatmap has a
    positive side and lies inside the plot, and the squares of two
    different cells do not overlap: one of them ends, with its margin of
    2, where the other starts, horizontally or vertically. *)
Theorem heatmap_cells_in_plot (size : nat) (Hsize : (1 <= size <= 6)%nat)
    (i : nat) (Hi : (i < size * size)%nat) :
  let c := heatmapCell size i in
  0 < Rect.width c
  /\ Rect.width c = Rect.height c
  /\ padding <= Rect.x c
  /\ Rect.x c + Rect.width c <= width - padding
  /\ padding <= Rect.y c
  /\ Rect.y c + Rect.height c <= height - padding
  /\ forall j, (j < size * size)%nat -> j <> i ->
       let d := heatmapCell size j in
       Rect.x c + Rect.width c + 2 <= Rect.x d
       \/ Rect.x d + Rect.width d + 2 <= Rect.x c
       \/ Rect.y c + Rect.height c + 2 <= Rect.y d
       \/ Rect.y d + Rect.height d + 2 <= Rect.y c.
Proof.
  intros c.
  assert (0 < inject_Z (Z.of_nat size)) as Hs0.
  { change 0 with (inject_Z 0). rewrite <- Zlt_Qlt. lia. }
  assert (inject_Z (Z.of_nat size) <= 6) as Hs6.
  { change 6 with (inject_Z 6). rewrite <- Zle_Qle. lia. }
  pose proof (cellSize_value size) as Hcs.
  set (s := inject_Z (Z.of_nat size)) in *.
  assert (s * cellSize size == 230) as Hprod
    by (rewrite Hcs; field; lra).
  assert (0 < cellSize size) as Hpos.
  { rewrite Hcs. apply Qlt_shift_div_l; [exact Hs0|]. lra. }
  assert (forall k, (k < size * size)%nat ->
            0 <= inject_Z (Z.of_nat (k mod size))
            /\ inject_Z (Z.of_nat (k mod size)) + 1 <= s
            /\ 0 <= inject_Z (Z.of_nat (k / size))
            /\ inject_Z (Z.of_nat (k / size)) + 1 <= s) as Hrc.
  { intros k Hk.
    assert (k / size < size)%nat
      by (apply Nat.Div0.div_lt_upper_bound; lia).
    assert (k mod size < size)%nat by (apply Nat.mod_upper_bound; lia).
    unfold s. change 1 with (inject_Z 1).
    rewrite <- !inject_Z_plus, <- !Zle_Qle.
    repeat split; try apply inject_Z_nonneg; lia. }
  destruct (Hrc i Hi) as (Hc0 & Hc1 & Hr0 & Hr1).
  unfold c, heatmapCell. cbn [Rect.width Rect.height Rect.x Rect.y].
  set (ci := inject_Z (Z.of_nat (i mod size))) in *.
  set (ri := inject_Z (Z.of_nat (i / size))) in *.
  set (cs := cellSize size) in *.
  unfold width, height, padding.
  split; [nra|]. split; [reflexivity|].
  split; [nra|]. split; [nra|]. split; [nra|]. split; [nra|].
  intros j Hj Hne.
  cbn [Rect.width Rect.height Rect.x Rect.y].
  fold cs.
  set (cj := inject_Z (Z.of_nat (j mod size))).
  set (rj := inject_Z (Z.of_nat (j / size))).
  assert (forall a b : nat, (a < b)%nat ->
            inject_Z (Z.of_nat a) + 1 <= inject_Z (Z.of_nat b)) as Hstep.
  { intros a b Hab. change 1 with (inject_Z 1).
    rewrite <- inject_Z_plus, <- Zle_Qle. lia. }
  destruct (Nat.lt_trichotomy (i mod size) (j mod size)) as [H|[H|H]].
  - left. pose proof (Hstep _ _ H). fold ci cj in H0. nra.
  - destruct (Nat.lt_trichotomy (i / size) (j / size)) as [H'|[H'|H']].
    + right. right. left. pose proof (Hstep _ _ H').
      fold ri rj in H0. nra.
    + exfalso. apply Hne.
      rewrite (Nat.div_mod_eq j size), (Nat.div_mod_eq i size). congruence.
    + right. right. right. pose proof (Hstep _ _ H').
      fold ri rj in H0. nra.
  - right. left. pose proof (Hstep _ _ H). fold ci cj in H0. nra.
Qed.

(** X25. When the five values of a box are in order and inside the
    vertical range of the chart, the box is drawn inside the plot, from top
    to bottom: the upper whisker, the top of the box at the third
    quartile, the median line, the bottom of the box at the first
    quartile, the lower whisker; the height of its rectangle is the
    distance between the two quartile lines. *)
Theorem box_marks_ordered (mn mx q0 q1 q2 q3 q4 : Q)
    (Hlo : mn <= q0) (H01 : q0 <= q1) (H12 : q1 <= q2)
    (H23 : q2 <= q3) (H34 : q3 <= q4) (Hhi : q4 <= mx) :
  let m := boxMarks mn mx q0 q1 q2 q3 q4 in
  padding <= BoxMarks.yMax m
  /\ BoxMarks.yMax m <= BoxMarks.yQ3 m
  /\ BoxMarks.yQ3 m <= BoxMarks.yMed m
  /\ BoxMarks.yMed m <= BoxMarks.yQ1 m
  /\ BoxMarks.yQ1 m <= BoxMarks.yMin m
  /\ BoxMarks.yMin m <= height - padding
  /\ boxHeight m == BoxMarks.yQ1 m - BoxMarks.yQ3 m.
Proof.
  intros m. unfold m, boxMarks, boxHeight.
  cbn [BoxMarks.yMax BoxMarks.yMin BoxMarks.yQ3 BoxMarks.yQ1 BoxMarks.yMed].
  assert (mn <= mx) as Hrange by lra.
  assert (padding <= height - padding) as Hpad
    by (unfold height, padding; lra).
  assert (forall v w, v <= w ->
            scale w mn mx (height - padding) padding
            <= scale v mn mx (height - padding) padding) as Hdown.
  { intros v w Hvw.
    now apply (scale_order mn mx (height - padding) padding v w). }
  pose proof (Hdown _ _ H01). pose proof (Hdown _ _ H12).
  pose proof (Hdown _ _ H23). pose proof (Hdown _ _ H34).
  destruct (scale_between q4 mn mx (height - padding) padding
              ltac:(lra)) as [_ Htop].
  destruct (scale_between q0 mn mx (height - padding) padding
              ltac:(lra)) as [_ Hbottom].
  specialize (Htop Hpad). specialize (Hbottom Hpad).
  repeat (split; [lra|]).
  apply Qabs_pos. lra.
Qed.

End RenderGeometry.

Lemma bar_layout_witness :
  exists r,
    nth_error (Render.barRects [3; 1]) 1 = Some r
    /\ Rect.x r + Rect.width r <= Render.width - Render.padding.
Proof.
  eexists. split; [reflexivity|].
  apply (bar_layout [3; 1] ltac:(discriminate) 1%nat _ eq_refl).
Defined.

Lemma line_points_in_plot_witness :
  exists p,
    nth_error (Render.linePoints [3; 1; 2]) 1 = Some p
    /\ fst p == 300.
Proof.
  eexists. split; [reflexivity|].
  rewrite (proj1 (proj2 (line_points_in_plot [3; 1; 2]
                           ltac:(discriminate)))
             ltac:(simpl; lia) 1%nat _ eq_refl).
  reflexivity.
Defined.

Lemma density_points_in_plot_witness :
  List.length (Render.densityPoints
                 (ChartRenderer.getDensity [0; 30]
                    ChartRenderer.defaultBinCount)
                 (JS.Math_min [0; 30], JS.Math_max [0; 30])) = 30%nat.
Proof.
  apply (density_points_in_plot [0; 30]). discriminate.
Defined.

Lemma heatmap_cells_in_plot_witness :
  Rect.x (Render.heatmapCell 2 3) + Rect.width (Render.heatmapCell 2 3)
  <= Render.width - Render.padding.
Proof.
  apply (heatmap_cells_in_plot 2 ltac:(lia) 3 ltac:(simpl; lia)).
Defined.

Lemma box_marks_ordered_witness :
  BoxMarks.yQ3 (Render.boxMarks 1 100 1 2 3 4 100)
  <= BoxMarks.yMed (Render.boxMarks 1 100 1 2 3 4 100).
Proof.
  apply (box_marks_ordered 1 100 1 2 3 4 100); vm_compute; discriminate.
Defined.

Lemma histogram_bar_heights_witness :
  exists r,
    In r (Render.barRects
            (map inject_Z (ChartRenderer.histogramBins [1; 4])))
    /\ Rect.height r == Render.plotH.
Proof.
  apply (histogram_bar_heights [1; 4]). discriminate.
Defined.

(* ================================================================== *)
(** * The application state *)

Section AppInvariants.

Import App.

Variable N : string -> option Q.
Variable S : Q -> string.

Lemma invariant_reachable (s : State) :
  reachable N s -> invariant N s.
Proof.
  induction 1 as [|s s' Hreach [Hsel Hstats] Hstep].
  - split; [intros C; exfalso; now apply C | discriminate].
  - destruct Hstep; unfold invariant; cbn.
    + split; assumption.
    + split; [intros C; exfalso; now apply C | discriminate].
    + split; assumption.
    + destruct (MockBackend.analyzeCSV N file) as [stats|reason] eqn:E.
      * split; [discriminate|]. intros stats' Hs. injection Hs as <-.
        now exists file.
      * split; assumption.
    + split; [tauto | assumption].
    + split; [intros C; exfalso; now apply C | assumption].
    + split; assumption.
    + split; assumption.
Qed.


(** X27. [resetAll] does not cancel an analysis in flight: when the user
    goes back while a file is analysed, the summary of that file is stored
    once the analysis resolves, in a state that has no mode and no file. *)
Theorem reset_keeps_analysis_in_flight (file : MockBackend.File)
    (stats : DatasetStats.t)
    (Hres : MockBackend.analyzeCSV N file = Resolved stats) :
  exists s,
    reachable N s
    /\ mode s = None /\ csvFile s = None
    /\ datasetStats s = Some stats.
Proof.
  set (s1 := setMode CSV initial).
  set (s2 := uploadStarts file s1).
  set (s3 := resetAll s2).
  set (s4 := uploadSettles (MockBackend.analyzeCSV N file) [] s3).
  exists s4.
  assert (reachable N s1) as H1
    by (eapply reachable_step; [apply reachable_initial|];
        now apply ChooseMode).
  assert (reachable N s2) as H2
    by (eapply reachable_step; [exact H1|]; now apply UploadStarts).
  assert (reachable N s3) as H3
    by (eapply reachable_step; [exact H2|]; apply ResetAll; discriminate).
  split.
  - eapply reachable_step; [exact H3|].
    apply (UploadSettles N s3 [] file []). reflexivity.
  - unfold s4, uploadSettles. rewrite Hres. repeat split.
Qed.

End AppInvariants.

Lemma scenarioChartView_reachable :
  App.reachable MockBackend.decimalNumber App.scenarioChartView.
Proof.
  unfold App.scenarioChartView.
  eapply App.reachable_step.
  - eapply App.reachable_step.
    + eapply App.reachable_step.
      * eapply App.reachable_step; [apply App.reachable_initial|].
        now apply App.ChooseMode.
      * now apply App.UploadStarts.
    + apply (App.UploadSettles MockBackend.decimalNumber _ []
               MockBackend.scenarioFile []).
      reflexivity.
  - apply App.SelectChart; [reflexivity | discriminate | reflexivity].
Defined.


Lemma reset_keeps_analysis_in_flight_witness :
  exists s,
    App.reachable MockBackend.decimalNumber s
    /\ App.mode s = None
    /\ App.datasetStats s <> None.
Proof.
  destruct (reset_keeps_analysis_in_flight MockBackend.decimalNumber
              MockBackend.scenarioFile _ eq_refl)
    as (s & Hreach & Hmode & _ & Hstats).
  exists s. split; [exact Hreach|]. split; [exact Hmode|].
  rewrite Hstats. discriminate.
Defined.
